(** * CachedBlockchainAccount: a caching decorator over a blockchain account

    Shallow embedding of [src/accounts/CachedBlockchainAccount.js] and of the
    cache store it calls ([utils/cache], described in the design document but
    not part of the sources at hand).

    Definitions:
    - [Js]          the JavaScript values and string conversions the class uses
                    ([String(x)] in template literals, [Array.prototype.join]);
    - [Str]         the separator [-] of the cache keys;
    - [CacheStore]  the keyed store of pending and completed computations;
    - [Account]     the base object, the world, and the class method by method;
    - [Sample]      the categories of the design document and a sample account.

    Facts: strings and [join]; singleflight of the store; forwarding, key
    derivation and cached calls of the class; the sample account. *)

From stdpp Require Import base option list strings gmap pretty.
From Stdlib Require Import ZArith Lia Ascii.

Local Open Scope Z_scope.

(* ===================================================================== *)
(** ** JavaScript values and string conversions *)
(* ===================================================================== *)

Module Js.

(** The primitive values that flow through the proxy as arguments and
    results.  Numbers are integers; their rendering below is the plain
    decimal one, which is JavaScript's for the integers it represents
    exactly (of magnitude below 2^53, see [safe_number]) and not beyond
    (from 10^21 on JavaScript prints an exponent). *)
Inductive JsValue : Type :=
| VUndefined
| VNull
| VBool (b : bool)
| VNum (n : Z)
| VStr (s : string).

Global Instance JsValue_eq_dec : EqDecision JsValue.
Proof. solve_decision. Defined.

(** [String(v)], the conversion a template literal applies to [${v}]. *)
Definition to_string (v : JsValue) : string :=
  match v with
  | VUndefined => "undefined"
  | VNull => "null"
  | VBool true => "true"
  | VBool false => "false"
  | VNum n => pretty n
  | VStr s => s
  end.

(** The conversion [Array.prototype.join] applies to one element:
    [undefined] and [null] become the empty string. *)
Definition join_element (v : JsValue) : string :=
  match v with
  | VUndefined | VNull => ""
  | _ => to_string v
  end.

(** [args.join(sep)]. *)
Fixpoint join (sep : string) (args : list JsValue) : string :=
  match args with
  | [] => ""
  | [x] => join_element x
  | x :: rest => join_element x +:+ sep +:+ join sep rest
  end.

(** What a settled promise (or a synchronous call) delivers. *)
Inductive Outcome : Type :=
| Returned (v : JsValue)
| Failed (e : JsValue).

Global Instance Outcome_eq_dec : EqDecision Outcome.
Proof. solve_decision. Defined.

End Js.
Export Js.

(* ===================================================================== *)
(** ** Strings: the separator character and what it splits *)
(* ===================================================================== *)

Module Str.

Definition dash : ascii := "-"%char.

(** [dash_free s]: the character [-] does not occur in [s]. *)
Fixpoint dash_free (s : string) : bool :=
  match s with
  | EmptyString => true
  | String c s' => if decide (c = dash) then false else dash_free s'
  end.

End Str.

(* ===================================================================== *)
(** ** The cache store *)
(* ===================================================================== *)

(** The module [utils/cache] that the class requires is not among the sources;
    the store below follows its description in the design document (sections
    3, 4.1, 5 and 7): entries are found by the key and the category of the
    call, an entry is either pending (one computation in flight, with the
    callers waiting for it) or ready (a value and the time it was produced),
    and the bookkeeping around a call is one atomic step. *)

Module CacheStore.

(** Modelled from the spec: the state and payload of a [CacheEntry] of
    [utils/cache].  A pending entry has no readable value, only callers
    waiting for the one computation in flight; a ready entry has its value
    and the time it was produced.  Whether a ready entry has expired is
    decided from that time when the entry is looked up (see [fresh]). *)
Inductive Entry : Type :=
| Pending (waiters : list nat)
| Ready (value : JsValue) (producedAt : Z).

(** What the store decides when a valid call comes in. *)
Inductive Decision : Type :=
| Hit (v : JsValue)    (* a fresh value is served *)
| Join                 (* a computation is in flight: wait for it *)
| Start.               (* the caller's factory is invoked *)

(** Modelled from the spec: the failure [InvalidKey] of [utils/cache], for
    a call with an empty key or an unknown category. *)
Definition InvalidKey : JsValue := VStr "InvalidKey".

Section Store.
Context {Category : Type} `{Countable Category}.
(** The freshness window of each category (configuration). *)
Variable TTL : Category → Z.

Local Abbreviation Entries := (gmap (string * Category) Entry).

(** Modelled from the spec: the input check of [getOrCompute] in
    [utils/cache].  The key is a non-empty string and the category one
    of the enumeration; a category that is not ([None], as [undefined]
    is) and an empty key are rejected before any factory runs.  A valid
    call addresses the entry of its key and category. *)
Definition entry_id (key : string) (category : option Category)
  : option (string * Category) :=
  match category with
  | None => None
  | Some c => if decide (key = "") then None else Some (key, c)
  end.

(** Modelled from the spec: the freshness test of [utils/cache], "an
    entry exists, is Ready, and now - producedAt < TTL(category)". *)
Definition fresh (c : Category) (now : Z) (e : option Entry)
  : option JsValue :=
  match e with
  | Some (Ready v t) => if decide (now - t < TTL c) then Some v else None
  | _ => None
  end.

(** No computation is in flight for the entry and no fresh value is
    there: the next call has to compute. *)
Definition idle (c : Category) (now : Z) (e : option Entry) : bool :=
  match e with
  | Some (Pending _) => false
  | _ => bool_decide (fresh c now e = None)
  end.

(** Modelled from the spec: the entry half of [getOrCompute] in
    [utils/cache], the atomic check-freshness / register-pending
    step. *)
Definition enter (id : string * Category) (caller : nat) (now : Z)
    (m : Entries) : Decision * Entries :=
  match m !! id with
  | Some (Pending ws) => (Join, <[id := Pending (ws ++ [caller])]> m)
  | e =>
    match fresh id.2 now e with
    | Some v => (Hit v, m)
    | None => (Start, <[id := Pending [caller]]> m)
    end
  end.

(** Modelled from the spec: the exit half of [getOrCompute] in
    [utils/cache] when the factory produced [v]: the entry becomes Ready
    and every waiting caller receives [v]. *)
Definition resolve (id : string * Category) (v : JsValue) (now : Z)
    (m : Entries) : list nat * Entries :=
  match m !! id with
  | Some (Pending ws) => (ws, <[id := Ready v now]> m)
  | _ => ([], m)
  end.

(** Modelled from the spec: the exit half of [getOrCompute] in
    [utils/cache] when the factory failed: the entry is removed, the
    failure goes to every waiting caller and nothing is cached. *)
Definition reject (id : string * Category) (m : Entries)
  : list nat * Entries :=
  match m !! id with
  | Some (Pending ws) => (ws, delete id m)
  | _ => ([], m)
  end.

(** *** Interleaved callers

    Modelled from the spec: the scheduling of [utils/cache].  Callers and
    factories run interleaved and suspend only inside the factory, so what
    happens to the store is a sequence of events, each one atomic: a call
    comes in, a factory produces its value, a factory fails. *)
Inductive Event : Type :=
| Call (key : string) (category : option Category) (caller : nat) (now : Z)
| Resolved (key : string) (category : Category) (v : JsValue) (now : Z)
| Rejected (key : string) (category : Category) (e : JsValue).

Record System : Type := mkSystem {
  entries : Entries;
  (** the factory invocations so far, by entry *)
  invoked : list (string * Category);
  (** what each caller has received so far *)
  delivered : list (nat * Outcome)
}.

Definition deliver (o : Outcome) (callers : list nat)
  : list (nat * Outcome) :=
  (λ c, (c, o)) <$> callers.

(** Modelled from the spec: [getOrCompute] of [utils/cache] split at the
    points where it suspends; the factory is invoked when [enter]
    answers [Start] and at no other time. *)
Definition step (s : System) (ev : Event) : System :=
  match ev with
  | Call key category caller now =>
    match entry_id key category with
    | None =>
        mkSystem (entries s) (invoked s)
                 (delivered s ++ [(caller, Failed InvalidKey)])
    | Some id =>
      let '(d, m) := enter id caller now (entries s) in
      match d with
      | Hit v =>
          mkSystem m (invoked s) (delivered s ++ [(caller, Returned v)])
      | Join => mkSystem m (invoked s) (delivered s)
      | Start => mkSystem m (invoked s ++ [id]) (delivered s)
      end
    end
  | Resolved key c v now =>
    let '(ws, m) := resolve (key, c) v now (entries s) in
    mkSystem m (invoked s) (delivered s ++ deliver (Returned v) ws)
  | Rejected key c e =>
    let '(ws, m) := reject (key, c) (entries s) in
    mkSystem m (invoked s) (delivered s ++ deliver (Failed e) ws)
  end.

Definition run (s : System) (evs : list Event) : System :=
  foldl step s evs.

(** The callers that asked for entry [id] in a trace. *)
Fixpoint callers_of (id : string * Category) (evs : list Event)
  : list nat :=
  match evs with
  | [] => []
  | Call key category caller _ :: rest =>
      if decide (entry_id key category = Some id)
      then caller :: callers_of id rest
      else callers_of id rest
  | _ :: rest => callers_of id rest
  end.

(** The event ends a computation of entry [id]. *)
Definition settles (id : string * Category) (ev : Event) : bool :=
  match ev with
  | Call _ _ _ _ => false
  | Resolved key c _ _ | Rejected key c _ => bool_decide ((key, c) = id)
  end.

(** How often the factory of entry [id] was invoked. *)
Definition invocations (id : string * Category) (s : System) : nat :=
  length (filter (λ i, i = id) (invoked s)).

End Store.

End CacheStore.
Export CacheStore.

(* ===================================================================== *)
(** ** The base account, the world it lives in, and the proxy class *)
(* ===================================================================== *)

(** How a call ends once it is awaited: with a value, with a failure, or not
    at all within the run (it waits for a computation somebody else has in
    flight). *)
Inductive Result (A : Type) : Type :=
| Fulfilled (a : A)
| Thrown (e : JsValue)
| Unsettled.
Arguments Fulfilled {A} a.
Arguments Thrown {A} e.
Arguments Unsettled {A}.

(** The public methods of the class, in the order of the source. *)
Inductive Method : Type :=
| RetrieveSecurePrivateKey | GetConnection | GetCredit | GetTokens
| GetBalance | GetReceiveAddress | GetOrCreateTokenAccount
| ValidateDestinationAccount | Airdrop | GetAllNfts | GetNft
| GetAllNftsGrouped | GetCollectionGroup | GetCollection
| GetCollectionItems | GetListedNfts | GetNftBids | CreateNftBurnTx
| ConfirmNftBurn | GetBestSwapQuote | ExpireSwapQuote
| EstimateTransactionsFee | EstimateTransferFee
| CreateTransferTransaction | ConfirmTransferTransaction
| CreateSwapTransaction | ListNft | UnlistNft | BuyNft | BidNft
| CancelBidNft | GetTransaction | GetRecentTransactions | GetDomain
| GetDomainFromPublicKey | GetPublicKeyFromDomain | ScanTransactions
| GetAvailableTokens | GetFeaturedTokens.

Global Instance Method_eq_dec : EqDecision Method.
Proof. solve_decision. Defined.

(** The name under which the class exposes the method. *)
Definition method_name (m : Method) : string :=
  match m with
  | RetrieveSecurePrivateKey => "retrieveSecurePrivateKey"
  | GetConnection => "getConnection"
  | GetCredit => "getCredit"
  | GetTokens => "getTokens"
  | GetBalance => "getBalance"
  | GetReceiveAddress => "getReceiveAddress"
  | GetOrCreateTokenAccount => "getOrCreateTokenAccount"
  | ValidateDestinationAccount => "validateDestinationAccount"
  | Airdrop => "airdrop"
  | GetAllNfts => "getAllNfts"
  | GetNft => "getNft"
  | GetAllNftsGrouped => "getAllNftsGrouped"
  | GetCollectionGroup => "getCollectionGroup"
  | GetCollection => "getCollection"
  | GetCollectionItems => "getCollectionItems"
  | GetListedNfts => "getListedNfts"
  | GetNftBids => "getNftBids"
  | CreateNftBurnTx => "createNftBurnTx"
  | ConfirmNftBurn => "confirmNftBurn"
  | GetBestSwapQuote => "getBestSwapQuote"
  | ExpireSwapQuote => "expireSwapQuote"
  | EstimateTransactionsFee => "estimateTransactionsFee"
  | EstimateTransferFee => "estimateTransferFee"
  | CreateTransferTransaction => "createTransferTransaction"
  | ConfirmTransferTransaction => "confirmTransferTransaction"
  | CreateSwapTransaction => "createSwapTransaction"
  | ListNft => "listNft"
  | UnlistNft => "unlistNft"
  | BuyNft => "buyNft"
  | BidNft => "bidNft"
  | CancelBidNft => "cancelBidNft"
  | GetTransaction => "getTransaction"
  | GetRecentTransactions => "getRecentTransactions"
  | GetDomain => "getDomain"
  | GetDomainFromPublicKey => "getDomainFromPublicKey"
  | GetPublicKeyFromDomain => "getPublicKeyFromDomain"
  | ScanTransactions => "scanTransactions"
  | GetAvailableTokens => "getAvailableTokens"
  | GetFeaturedTokens => "getFeaturedTokens"
  end.

(** The methods whose body goes through [cache]. *)
Definition cached (m : Method) : bool :=
  match m with
  | GetBalance | GetAllNfts | GetNft | GetAllNftsGrouped
  | GetRecentTransactions | GetAvailableTokens | GetFeaturedTokens => true
  | _ => false
  end.

(** The methods declared with a rest parameter [(...args)]; the others are
    declared with an empty parameter list. *)
Definition takes_args (m : Method) : bool :=
  match m with
  | RetrieveSecurePrivateKey | GetConnection | GetCredit | GetTokens
  | GetAllNfts | GetAllNftsGrouped | GetDomain
  | GetAvailableTokens | GetFeaturedTokens => false
  | _ => true
  end.

(** The cached methods whose key is [baseKey()] as it is. *)
Definition whole_account (m : Method) : bool :=
  match m with
  | GetBalance | GetAllNfts | GetAllNftsGrouped | GetRecentTransactions => true
  | _ => false
  end.

(** The cached methods whose key is [network.id]. *)
Definition whole_network (m : Method) : bool :=
  match m with
  | GetAvailableTokens | GetFeaturedTokens => true
  | _ => false
  end.

(** A settled call of the base object, as the awaiting caller sees it. *)
Definition settle (o : Outcome) : Result JsValue :=
  match o with
  | Returned v => Fulfilled v
  | Failed e => Thrown e
  end.

(** What the class imports from [utils/cache] besides the function [cache]:
    the object [CACHE_TYPES], read by property name (a property that is not
    there reads [undefined], here [None]), and the freshness window the
    store applies to each category. *)
Class CacheConfig (Category : Type) : Type := {
  CACHE_TYPES : string → option Category;
  TTL : Category → Z
}.

Section Account.
(** The state behind the base account (the chain, the network, ...). *)
Context {S : Type}.
Context {Category : Type} `{Countable Category}.
Context `{!CacheConfig Category}.

(** [network]: of the network object the class reads the field [id], a
    string. *)
Record Network : Type := { network_id : string }.

(** The wrapped object: its identity fields and its methods.  A method is
    looked up by name and called with an argument list; it may change the
    state behind the account, and it returns or fails.  A name the object
    has no method for is given as a method that throws and changes
    nothing, as the call expression does. *)
Record BaseAccount : Type := {
  base_network : Network;
  base_index : JsValue;
  base_path : JsValue;
  base_keyPair : JsValue;
  base_publicKey : JsValue;
  method : string → list JsValue → S → Outcome * S
}.

(** Everything a call can read or change.  [trace] and [requested] are
    records kept for the proofs: the call expressions [base.name(...args)]
    the class evaluates, in order (also those that throw because the base
    has no such method), and the (key, category) pairs handed to
    [cache]. *)
Record World : Type := mkWorld {
  base_state : S;
  store : gmap (string * Category) Entry;
  clock : Z;
  trace : list (string * list JsValue);
  requested : list (string * option Category)
}.

Definition with_store (m : gmap (string * Category) Entry) (w : World)
  : World :=
  mkWorld (base_state w) m (clock w) (trace w) (requested w).

(** Time passes between calls. *)
Definition advance (d : Z) (w : World) : World :=
  mkWorld (base_state w) (store w) (clock w + d) (trace w) (requested w).

(** Computations over the world.  Every call is followed to its end
    before the next one starts, so an [async] method and a plain one are
    told apart by nothing but the [Result] they deliver. *)
Definition M (A : Type) : Type := World → Result A * World.

Global Instance M_ret : MRet M := λ A a w, (Fulfilled a, w).

Global Instance M_bind : MBind M := λ A B k c w,
  match c w with
  | (Fulfilled a, w') => k a w'
  | (Thrown e, w') => (Thrown e, w')
  | (Unsettled, w') => (Unsettled, w')
  end.

(** [b.name(...args)]: the one place where the base object is called.
    The call expression is recorded whether it returns or throws. *)
Definition invoke (b : BaseAccount) (name : string) (args : list JsValue)
  : M JsValue := λ w,
  let '(o, s') := method b name args (base_state w) in
  let w' := mkWorld s' (store w) (clock w)
                    (trace w ++ [(name, args)]) (requested w) in
  match o with
  | Returned v => (Fulfilled v, w')
  | Failed e => (Thrown e, w')
  end.

(** The world once [cache] has noted a request. *)
Definition note_request (key : string) (type : option Category)
    (w : World) : World :=
  mkWorld (base_state w) (store w) (clock w) (trace w)
          (requested w ++ [(key, type)]).

(** Modelled from the spec: [cache(key, type, fn)] of [utils/cache], that
    is [getOrCompute] followed to its end by one caller: a fresh value is
    returned at once; otherwise [fn] is invoked, its value is stored with
    the current time and returned, and its failure is passed on with the
    entry removed. *)
Definition cache (key : string) (type : option Category) (fn : M JsValue)
  : M JsValue := λ w,
  let w := note_request key type w in
  match entry_id key type with
  | None => (Thrown InvalidKey, w)
  | Some id =>
    match enter TTL id 0%nat (clock w) (store w) with
    | (Hit v, _) => (Fulfilled v, w)
    | (Join, m) => (Unsettled, with_store m w)
    | (Start, m) =>
      match fn (with_store m w) with
      | (Fulfilled v, w') =>
          (Fulfilled v,
           with_store (resolve id v (clock w') (store w')).2 w')
      | (Thrown e, w') =>
          (Thrown e, with_store (reject id (store w')).2 w')
      | (Unsettled, w') => (Unsettled, w')
      end
    end
  end.

(** *** class CachedBlockchainAccount *)

Record CachedBlockchainAccount : Type := {
  base : BaseAccount;
  network : Network;
  index : JsValue;
  path : JsValue;
  keyPair : JsValue;
  publicKey : JsValue
}.

Definition constructor (b : BaseAccount) : CachedBlockchainAccount :=
  {| base := b;
     network := base_network b;
     index := base_index b;
     path := base_path b;
     keyPair := base_keyPair b;
     publicKey := base_publicKey b |}.

Section Methods.
Variable this : CachedBlockchainAccount.
(** The arguments of the call; a method declared without parameters
    does not look at them. *)
Variable args : list JsValue.

Definition baseKey : M string :=
  addr ← invoke (base this) "getReceiveAddress" [];
  mret (network_id (network this) +:+ "-" +:+ to_string addr).

Definition retrieveSecurePrivateKey : M JsValue :=
  invoke (base this) "retrieveSecurePrivateKey" [].

Definition getConnection : M JsValue :=
  invoke (base this) "getConnection" [].

Definition getCredit : M JsValue :=
  invoke (base this) "getCredit" [].

Definition getTokens : M JsValue :=
  invoke (base this) "getTokens" [].

Definition getBalance : M JsValue :=
  key ← baseKey;
  cache key (CACHE_TYPES "BALANCE")
        (invoke (base this) "getBalance" args).

Definition getReceiveAddress : M JsValue :=
  invoke (base this) "getReceiveAddress" args.

Definition getOrCreateTokenAccount : M JsValue :=
  invoke (base this) "getOrCreateTokenAccount" args.

Definition validateDestinationAccount : M JsValue :=
  invoke (base this) "validateDestinationAccount" args.

Definition airdrop : M JsValue :=
  invoke (base this) "airdrop" args.

Definition getAllNfts : M JsValue :=
  key ← baseKey;
  cache key (CACHE_TYPES "NFTS_ALL") (invoke (base this) "getAllNfts" []).

Definition getNft : M JsValue :=
  bk ← baseKey;
  let key := bk +:+ "-" +:+ join "-" args in
  cache key (CACHE_TYPES "SINGLE_NFT") (invoke (base this) "getNft" args).

Definition getAllNftsGrouped : M JsValue :=
  key ← baseKey;
  cache key (CACHE_TYPES "NFTS")
        (invoke (base this) "getAllNftsGrouped" []).

Definition getCollectionGroup : M JsValue :=
  invoke (base this) "getCollectionGroup" args.

Definition getCollection : M JsValue :=
  invoke (base this) "getCollection" args.

Definition getCollectionItems : M JsValue :=
  invoke (base this) "getCollectionItems" args.

Definition getListedNfts : M JsValue :=
  invoke (base this) "getListedNfts" args.

Definition getNftBids : M JsValue :=
  invoke (base this) "getNftsBids" args.

Definition createNftBurnTx : M JsValue :=
  invoke (base this) "createNftBurnTx" args.

Definition confirmNftBurn : M JsValue :=
  invoke (base this) "confirmNftBurn" args.

Definition getBestSwapQuote : M JsValue :=
  invoke (base this) "getBestSwapQuote" args.

Definition expireSwapQuote : M JsValue :=
  invoke (base this) "expireSwapQuote" args.

Definition estimateTransactionsFee : M JsValue :=
  invoke (base this) "estimateTransactionsFee" args.

Definition estimateTransferFee : M JsValue :=
  invoke (base this) "estimateTransferFee" args.

Definition createTransferTransaction : M JsValue :=
  invoke (base this) "createTransferTransaction" args.

Definition confirmTransferTransaction : M JsValue :=
  invoke (base this) "confirmTransferTransaction" args.

Definition createSwapTransaction : M JsValue :=
  invoke (base this) "createSwapTransaction" args.

Definition listNft : M JsValue :=
  invoke (base this) "listNft" args.

Definition unlistNft : M JsValue :=
  invoke (base this) "unlistNft" args.

Definition buyNft : M JsValue :=
  invoke (base this) "buyNft" args.

Definition bidNft : M JsValue :=
  invoke (base this) "bidNft" args.

Definition cancelBidNft : M JsValue :=
  invoke (base this) "cancelBidNft" args.

Definition getTransaction : M JsValue :=
  invoke (base this) "getTransaction" args.

Definition getRecentTransactions : M JsValue :=
  key ← baseKey;
  cache key (CACHE_TYPES "TRANSACTIONS")
        (invoke (base this) "getRecentTransactions" args).

Definition getDomain : M JsValue :=
  invoke (base this) "getDomain" [].

Definition getDomainFromPublicKey : M JsValue :=
  invoke (base this) "getDomainFromPublicKey" args.

Definition getPublicKeyFromDomain : M JsValue :=
  invoke (base this) "getPublicKeyFromDomain" args.

Definition scanTransactions : M JsValue :=
  invoke (base this) "scanTransactions" args.

Definition getAvailableTokens : M JsValue :=
  let key := network_id (network this) in
  cache key (CACHE_TYPES "AVAILABLE_TOKENS")
        (invoke (base this) "getAvailableTokens" []).

Definition getFeaturedTokens : M JsValue :=
  let key := network_id (network this) in
  cache key (CACHE_TYPES "FEATURED_TOKENS")
        (invoke (base this) "getFeaturedTokens" []).

End Methods.

(** [this[m](...args)]: the call of a method by its name. *)
Definition call (this : CachedBlockchainAccount) (m : Method)
    (args : list JsValue) : M JsValue :=
  match m with
  | RetrieveSecurePrivateKey => retrieveSecurePrivateKey this
  | GetConnection => getConnection this
  | GetCredit => getCredit this
  | GetTokens => getTokens this
  | GetBalance => getBalance this args
  | GetReceiveAddress => getReceiveAddress this args
  | GetOrCreateTokenAccount => getOrCreateTokenAccount this args
  | ValidateDestinationAccount => validateDestinationAccount this args
  | Airdrop => airdrop this args
  | GetAllNfts => getAllNfts this
  | GetNft => getNft this args
  | GetAllNftsGrouped => getAllNftsGrouped this
  | GetCollectionGroup => getCollectionGroup this args
  | GetCollection => getCollection this args
  | GetCollectionItems => getCollectionItems this args
  | GetListedNfts => getListedNfts this args
  | GetNftBids => getNftBids this args
  | CreateNftBurnTx => createNftBurnTx this args
  | ConfirmNftBurn => confirmNftBurn this args
  | GetBestSwapQuote => getBestSwapQuote this args
  | ExpireSwapQuote => expireSwapQuote this args
  | EstimateTransactionsFee => estimateTransactionsFee this args
  | EstimateTransferFee => estimateTransferFee this args
  | CreateTransferTransaction => createTransferTransaction this args
  | ConfirmTransferTransaction => confirmTransferTransaction this args
  | CreateSwapTransaction => createSwapTransaction this args
  | ListNft => listNft this args
  | UnlistNft => unlistNft this args
  | BuyNft => buyNft this args
  | BidNft => bidNft this args
  | CancelBidNft => cancelBidNft this args
  | GetTransaction => getTransaction this args
  | GetRecentTransactions => getRecentTransactions this args
  | GetDomain => getDomain this
  | GetDomainFromPublicKey => getDomainFromPublicKey this args
  | GetPublicKeyFromDomain => getPublicKeyFromDomain this args
  | ScanTransactions => scanTransactions this args
  | GetAvailableTokens => getAvailableTokens this
  | GetFeaturedTokens => getFeaturedTokens this
  end.

(** The property of [CACHE_TYPES] a cached method reads (the empty name
    for the methods that read none). *)
Definition category_property (m : Method) : string :=
  match m with
  | GetBalance => "BALANCE"
  | GetAllNfts => "NFTS_ALL"
  | GetNft => "SINGLE_NFT"
  | GetAllNftsGrouped => "NFTS"
  | GetRecentTransactions => "TRANSACTIONS"
  | GetAvailableTokens => "AVAILABLE_TOKENS"
  | GetFeaturedTokens => "FEATURED_TOKENS"
  | _ => ""
  end.

(** The key each cached method derives, given the network identifier
    and the receive address. *)
Definition key_of (m : Method) (net : string) (a : JsValue)
    (args : list JsValue) : string :=
  if whole_network m then net
  else if decide (m = GetNft)
       then (net +:+ "-" +:+ to_string a) +:+ "-" +:+ join "-" args
       else net +:+ "-" +:+ to_string a.

End Account.

(* ===================================================================== *)
(** ** The categories of the design document and a sample account *)
(* ===================================================================== *)

Module Sample.

(** The cache categories: the seven of the design document's enumeration,
    and [NFTS], the one the class names for [getAllNftsGrouped]. *)
Inductive CacheCategory : Type :=
| BALANCE | NFTS_ALL | SINGLE_NFT | NFTS_GROUPED | TRANSACTIONS
| AVAILABLE_TOKENS | FEATURED_TOKENS | NFTS.

Global Instance CacheCategory_eq_dec : EqDecision CacheCategory.
Proof. solve_decision. Defined.

Definition category_code (c : CacheCategory) : nat :=
  match c with
  | BALANCE => 0 | NFTS_ALL => 1 | SINGLE_NFT => 2 | NFTS_GROUPED => 3
  | TRANSACTIONS => 4 | AVAILABLE_TOKENS => 5 | FEATURED_TOKENS => 6
  | NFTS => 7
  end.

Definition category_of_code (n : nat) : CacheCategory :=
  match n with
  | 0 => BALANCE | 1 => NFTS_ALL | 2 => SINGLE_NFT | 3 => NFTS_GROUPED
  | 4 => TRANSACTIONS | 5 => AVAILABLE_TOKENS | 6 => FEATURED_TOKENS
  | _ => NFTS
  end%nat.

Global Instance CacheCategory_countable : Countable CacheCategory.
Proof.
  refine (inj_countable' category_code category_of_code _); by intros [].
Defined.

(** Modelled from the spec: the object [CACHE_TYPES] exported by
    [utils/cache], which is not among the sources.  It has one property
    for each category of the design document's enumeration, under the
    category's name, and every property the class reads: besides six of
    those, [NFTS], read by [getAllNftsGrouped], whose results the source
    says are cached.  Any other property reads [undefined]. *)
Definition sample_CACHE_TYPES (name : string) : option CacheCategory :=
  if decide (name = "BALANCE") then Some BALANCE
  else if decide (name = "NFTS_ALL") then Some NFTS_ALL
  else if decide (name = "SINGLE_NFT") then Some SINGLE_NFT
  else if decide (name = "NFTS_GROUPED") then Some NFTS_GROUPED
  else if decide (name = "TRANSACTIONS") then Some TRANSACTIONS
  else if decide (name = "AVAILABLE_TOKENS") then Some AVAILABLE_TOKENS
  else if decide (name = "FEATURED_TOKENS") then Some FEATURED_TOKENS
  else if decide (name = "NFTS") then Some NFTS
  else None.

(** A freshness policy: thirty seconds for every category. *)
Definition sample_TTL (c : CacheCategory) : Z := 30.

Global Instance sample_config : CacheConfig CacheCategory :=
  {| CACHE_TYPES := sample_CACHE_TYPES; TTL := sample_TTL |}.

(** A base account over a counter of the queries that reached the chain.
    It knows its address, echoes the first argument of [getTokens] and
    [getRecentTransactions], answers [getBalance] with the counter,
    [getNftsBids] and [getAllNftsGrouped] with a fixed text,
    [getAvailableTokens] with a text that names the account and [getNft]
    with a text that names its first argument; any other name is not a
    method of it, and calling it throws. *)
Definition sample_method (address : string) (name : string)
    (args : list JsValue) (n : nat) : Outcome * nat :=
  if decide (name = "getReceiveAddress") then (Returned (VStr address), n)
  else if decide (name = "getTokens")
    then (Returned (hd VUndefined args), Datatypes.S n)
  else if decide (name = "getRecentTransactions")
    then (Returned (hd VUndefined args), Datatypes.S n)
  else if decide (name = "getBalance")
    then (Returned (VNum (Z.of_nat n)), Datatypes.S n)
  else if decide (name = "getNftsBids")
    then (Returned (VStr "bids"), Datatypes.S n)
  else if decide (name = "getAvailableTokens")
    then (Returned (VStr ("tokens listed for " +:+ address)), Datatypes.S n)
  else if decide (name = "getNft")
    then (Returned (VStr ("nft " +:+ to_string (hd VUndefined args))),
          Datatypes.S n)
  else if decide (name = "getAllNftsGrouped")
    then (Returned (VStr "groups"), Datatypes.S n)
  else (Failed (VStr "TypeError: not a function"), n).

Definition sample_base (net address : string) : BaseAccount (S := nat) :=
  {| base_network := {| network_id := net |};
     base_index := VNum 0;
     base_path := VStr "m/44'/501'/0'/0'";
     base_keyPair := VUndefined;
     base_publicKey := VStr address;
     method := sample_method address |}.

Definition account (net address : string)
  : CachedBlockchainAccount (S := nat) :=
  constructor (sample_base net address).

Definition alice : CachedBlockchainAccount (S := nat) :=
  account "solana-devnet" "7xKXtg2CW87d".


(** Nothing cached, nothing called yet, at time 1000. *)
Definition w0 : World (S := nat) (Category := CacheCategory) :=
  mkWorld 0%nat ∅ 1000 [] [].

(** A store with nothing in it, nothing invoked and nothing delivered. *)
Definition s0 : CacheStore.System (Category := CacheCategory) :=
  mkSystem ∅ [] [].

End Sample.

(* ===================================================================== *)
(** ** The class as a whole: what each method calls, and callers *)
(* ===================================================================== *)

(** The cached methods whose key starts with [baseKey()]: the four lookups
    of a whole account and [getNft]. *)
Definition account_scoped (m : Method) : bool :=
  whole_account m || bool_decide (m = GetNft).

(** The method of the base object that a method of the class calls for its
    result: the method of the same name, except for [getNftBids]. *)
Definition base_method_name (m : Method) : string :=
  if decide (m = GetNftBids) then "getNftsBids" else method_name m.

(** The arguments of that call: the caller's for a method declared with
    [(...args)], none for the others. *)
Definition forwarded_args (m : Method) (args : list JsValue)
  : list JsValue :=
  if takes_args m then args else [].

(** The values whose text the model renders as JavaScript does: every
    value but the numbers JavaScript does not represent exactly. *)
Definition safe_number (v : JsValue) : bool :=
  match v with
  | VNum n => bool_decide (- 2 ^ 53 < n < 2 ^ 53)
  | _ => true
  end.

Section Callers.
Context {S : Type}.
Context {Category : Type} `{Countable Category}.
Context `{!CacheConfig Category}.

(** A caller that makes the calls of a script one after the other, awaiting
    each and going on whether it returned or threw. *)
Fixpoint call_all (this : CachedBlockchainAccount (S := S))
    (script : list (Method * list JsValue)) (w : World)
  : list (Result JsValue) * World :=
  match script with
  | [] => ([], w)
  | (m, args) :: rest =>
    let '(r, w1) := call this m args w in
    let '(rs, w2) := call_all this rest w1 in
    (r :: rs, w2)
  end.

(** The same caller working on the base object directly. *)
Fixpoint invoke_all (b : BaseAccount (S := S))
    (script : list (string * list JsValue)) (s : S) : list Outcome * S :=
  match script with
  | [] => ([], s)
  | (name, args) :: rest =>
    let '(o, s1) := method b name args s in
    let '(os, s2) := invoke_all b rest s1 in
    (o :: os, s2)
  end.

(** The calls on the base object that a script of calls on the proxy stands
    for, when none of them is cached. *)
Definition direct_script (script : list (Method * list JsValue))
  : list (string * list JsValue) :=
  (λ c, (base_method_name c.1, forwarded_args c.1 c.2)) <$> script.

End Callers.

Module Offline.
Import Sample.

(** A base account that cannot tell its address: [getReceiveAddress]
    throws, every other method answers as the sample account does. *)
Definition offline_method (name : string) (args : list JsValue) (n : nat)
  : Outcome * nat :=
  if decide (name = "getReceiveAddress")
  then (Failed (VStr "Error: wallet locked"), n)
  else sample_method "" name args n.

Definition offline_base : BaseAccount (S := nat) :=
  {| base_network := {| network_id := "solana-devnet" |};
     base_index := VNum 0;
     base_path := VUndefined;
     base_keyPair := VUndefined;
     base_publicKey := VUndefined;
     method := offline_method |}.

Definition carol : CachedBlockchainAccount (S := nat) :=
  constructor offline_base.

End Offline.

(* ===================================================================== *)
(** * Facts *)
(* ===================================================================== *)

(* ===================================================================== *)
(** ** Facts about strings and the separator *)
(* ===================================================================== *)

Section StrFacts.
Import Str.

(** The two equations of string concatenation. *)
Lemma str_app_nil_l (b : string) : "" +:+ b = b.
Proof. reflexivity. Qed.

Lemma str_app_cons (x : ascii) (a b : string) :
  String x a +:+ b = String x (a +:+ b).
Proof. reflexivity. Qed.

Ltac unfold_app := rewrite ?str_app_cons, ?str_app_nil_l in *.


(** Cancellation on the left: the prefix is known, so is the rest. *)
Lemma str_app_cancel_l (p a b : string) : p +:+ a = p +:+ b → a = b.
Proof. apply String.app_inj. Qed.


Lemma dash_free_app (a b : string) :
  dash_free (a +:+ b) = dash_free a && dash_free b.
Proof.
  induction a as [|x a IH]; unfold_app; simpl; [done |].
  destruct (decide (x = dash)); [done | apply IH].
Qed.

Lemma dash_free_dash (a b : string) :
  dash_free (a +:+ String dash b) = false.
Proof.
  rewrite dash_free_app.
  replace (dash_free (String dash b)) with false; [apply andb_false_r |].
  simpl. by destruct (decide (dash = dash)).
Qed.

(** A string is cut in one way only at its first separator. *)
Lemma split_first_dash (a1 a2 r1 r2 : string) :
  dash_free a1 = true → dash_free a2 = true →
  a1 +:+ String dash r1 = a2 +:+ String dash r2 →
  a1 = a2 ∧ r1 = r2.
Proof.
  revert a2; induction a1 as [|x a1 IH]; intros [|y a2] F1 F2 E;
    unfold_app; simpl in *.
  - by injection E as ->.
  - injection E as <- _. by rewrite decide_True in F2.
  - injection E as -> _. by rewrite decide_True in F1.
  - injection E as -> E.
    destruct (decide (y = dash)); [done |].
    destruct (IH a2 F1 F2 E) as [-> ->]. done.
Qed.


End StrFacts.


(** *** [join] on lists of strings *)

Section JoinFacts.
Import Str.

Lemma join_cons2 (sep : string) (x y : JsValue) (r : list JsValue) :
  join sep (x :: y :: r) = join_element x +:+ sep +:+ join sep (y :: r).
Proof. reflexivity. Qed.

Lemma dash_app (t : string) : "-" +:+ t = String dash t.
Proof. reflexivity. Qed.

(** Joined with [-], a non-empty list of strings that contain no [-] can
    be read back: the separators are exactly the joints. *)
Lemma join_strings_inj (ss1 ss2 : list string) :
  ss1 ≠ [] → ss2 ≠ [] →
  Forall (λ s, dash_free s = true) ss1 →
  Forall (λ s, dash_free s = true) ss2 →
  join "-" (VStr <$> ss1) = join "-" (VStr <$> ss2) →
  ss1 = ss2.
Proof.
  revert ss2. induction ss1 as [|a [|a' r] IH]; intros [|b [|b' r']];
    intros N1 N2 F1 F2 E; try done; rewrite ?fmap_cons, ?fmap_nil in E.
  - simpl in E. by rewrite E.
  - exfalso. rewrite (join_cons2 _ (VStr b)) in E. simpl in E.
    apply Forall_cons in F1 as [Fa _].
    rewrite E, dash_app, dash_free_dash in Fa. done.
  - exfalso. rewrite (join_cons2 _ (VStr a)) in E. simpl in E.
    apply Forall_cons in F2 as [Fb _].
    rewrite <- E, dash_app, dash_free_dash in Fb. done.
  - rewrite !join_cons2 in E. simpl join_element in E.
    rewrite !dash_app in E.
    apply Forall_cons in F1 as [Fa F1]. apply Forall_cons in F2 as [Fb F2].
    apply split_first_dash in E as [-> E]; [|done..].
    f_equal. by apply (IH (b' :: r')).
Qed.

End JoinFacts.


(* ===================================================================== *)
(** ** Singleflight *)
(* ===================================================================== *)

Section Singleflight.
Context {Category : Type} `{Countable Category}.
Variable TTL : Category → Z.

Local Abbreviation System := (@CacheStore.System Category _ _).
Local Abbreviation Event := (@CacheStore.Event Category).

Implicit Types (s : System) (ev : Event) (id : string * Category).

(** An event that does not end the computation of a pending entry leaves
    it pending, adds the caller if it is a call for that entry, invokes
    no factory for it and, if it is a call for that entry, answers
    nobody. *)
Lemma idle_enter (id : string * Category) (caller : nat) (now : Z)
    (m : gmap (string * Category) Entry) :
  idle TTL id.2 now (m !! id) = true →
  enter TTL id caller now m = (Start, <[id := Pending [caller]]> m).
Proof.
  unfold idle, enter. destruct (m !! id) as [[ws|v t]|] eqn:L; [done| |].
  - intros ->%bool_decide_eq_true. done.
  - intros _. done.
Qed.

Lemma enter_lookup_ne id id' (caller : nat) (now : Z)
    (m : gmap (string * Category) Entry) :
  id' ≠ id → (enter TTL id' caller now m).2 !! id = m !! id.
Proof.
  intros Hne. unfold enter.
  destruct (m !! id') as [[ws|v t]|]; simpl;
    try destruct (decide _); simpl; rewrite ?lookup_insert_ne by done; done.
Qed.

Lemma pending_step s ev id ws :
  entries s !! id = Some (Pending ws) →
  settles id ev = false →
  entries (step TTL s ev) !! id = Some (Pending (ws ++ callers_of id [ev])) ∧
  invocations id (step TTL s ev) = invocations id s ∧
  (callers_of id [ev] ≠ [] → delivered (step TTL s ev) = delivered s).
Proof.
  intros P Hs. destruct ev as [key cat caller now | key c v now | key c e];
    simpl in *.
  - destruct (entry_id key cat) as [id'|] eqn:E; simpl.
    + destruct (decide (Some id' = Some id)) as [[= ->]|Hne].
      * unfold enter. rewrite P. simpl.
        by rewrite lookup_insert_eq.
      * assert (id' ≠ id) as Hid by congruence.
        rewrite app_nil_r.
        pose proof (enter_lookup_ne id id' caller now (entries s) Hid) as L.
        destruct (enter TTL id' caller now (entries s)) as [d m'].
        simpl in L. unfold invocations.
        destruct d; simpl; rewrite L, P;
          rewrite ?filter_app, ?filter_cons_False, ?filter_nil, ?app_nil_r
            by done; done.
    + rewrite app_nil_r. done.
  - apply bool_decide_eq_false in Hs. rewrite app_nil_r.
    unfold resolve. destruct (entries s !! (key, c)) as [[ws'|v' t']|];
      simpl; rewrite ?lookup_insert_ne by done; done.
  - apply bool_decide_eq_false in Hs. rewrite app_nil_r.
    unfold reject. destruct (entries s !! (key, c)) as [[ws'|v' t']|];
      simpl; rewrite ?lookup_delete_ne by done; done.
Qed.

Lemma callers_of_app id (evs1 evs2 : list Event) :
  callers_of id (evs1 ++ evs2) = callers_of id evs1 ++ callers_of id evs2.
Proof.
  induction evs1 as [|[key cat caller now| |] evs1 IH]; simpl; [done | |done..].
  destruct (decide _); simpl; by rewrite IH.
Qed.

Lemma run_cons s ev (evs : list Event) :
  run TTL s (ev :: evs) = run TTL (step TTL s ev) evs.
Proof. reflexivity. Qed.

Lemma run_singleton s ev : run TTL s [ev] = step TTL s ev.
Proof. reflexivity. Qed.

Lemma run_app s (evs1 evs2 : list Event) :
  run TTL s (evs1 ++ evs2) = run TTL (run TTL s evs1) evs2.
Proof. apply foldl_app. Qed.

Lemma pending_run (evs : list Event) s id ws :
  entries s !! id = Some (Pending ws) →
  Forall (λ ev, settles id ev = false) evs →
  entries (run TTL s evs) !! id = Some (Pending (ws ++ callers_of id evs)) ∧
  invocations id (run TTL s evs) = invocations id s.
Proof.
  revert s ws. induction evs as [|ev evs IH]; intros s ws P F.
  - simpl. by rewrite app_nil_r.
  - apply Forall_cons in F as [Hev F].
    destruct (pending_step s ev id ws P Hev) as (P' & I' & _).
    destruct (IH _ _ P' F) as (P'' & I'').
    change (ev :: evs) with ([ev] ++ evs).
    rewrite callers_of_app, app_assoc. simpl. split; [done | congruence].
Qed.

(** The first call for an idle entry starts the one computation. *)
Lemma first_call s key c caller now :
  key ≠ "" →
  idle TTL c now (entries s !! (key, c)) = true →
  step TTL s (Call key (Some c) caller now) =
    mkSystem (<[(key, c) := Pending [caller]]> (entries s))
             (invoked s ++ [(key, c)]) (delivered s).
Proof.
  intros Hk Hi. simpl. rewrite decide_False by done.
  by rewrite (idle_enter (key, c) caller now _ Hi).
Qed.

(** C1. Singleflight.  Let no fresh value and no computation be there
    for the entry of key [k] and category [c] when the first of N calls
    for it comes in, and let the other N-1 calls arrive, interleaved with
    any events of other entries, before the computation ends.  Then the
    factory of the entry is invoked exactly once; no call for the entry
    is answered while the computation is in flight; and when it produces
    [v], every one of the N callers receives [v], which is also the value
    the entry then holds. *)
Theorem singleflight
    (s : System) (key : string) (c : Category) (caller0 : nat) (now0 : Z)
    (evs : list Event) (v : JsValue) (t : Z) :
  key ≠ "" →
  idle TTL c now0 (entries s !! (key, c)) = true →
  Forall (λ ev, settles (key, c) ev = false) evs →
  let id := (key, c) in
  let first := Call key (Some c) caller0 now0 in
  let mid := run TTL s (first :: evs) in
  let fin := step TTL mid (Resolved key c v t) in
  invocations id fin = Datatypes.S (invocations id s) ∧
  delivered (step TTL s first) = delivered s ∧
  (∀ pre caller now post,
     evs = pre ++ Call key (Some c) caller now :: post →
     delivered (run TTL s (first :: pre ++ [Call key (Some c) caller now]))
       = delivered (run TTL s (first :: pre))) ∧
  delivered fin =
    delivered mid ++ deliver (Returned v) (caller0 :: callers_of id evs) ∧
  entries fin !! id = Some (Ready v t).
Proof.
  intros Hk Hi F id first mid fin.
  pose proof (first_call s key c caller0 now0 Hk Hi) as E1. fold first in E1.
  assert (P1 : entries (step TTL s first) !! id = Some (Pending [caller0])).
  { rewrite E1. simpl. apply lookup_insert_eq. }
  assert (I1 : invocations id (step TTL s first)
               = Datatypes.S (invocations id s)).
  { rewrite E1. unfold invocations. simpl.
    rewrite filter_app, filter_cons_True, filter_nil by done.
    rewrite length_app. simpl. lia. }
  destruct (pending_run evs _ id _ P1 F) as (Pm & Im).
  change (run TTL (step TTL s first) evs) with mid in Pm, Im.
  assert (Ef : fin = mkSystem (<[id := Ready v t]> (entries mid))
                 (invoked mid)
                 (delivered mid
                    ++ deliver (Returned v) (caller0 :: callers_of id evs))).
  { subst fin. simpl. unfold resolve. fold id. by rewrite Pm. }
  split; [| split; [| split; [| split]]].
  - rewrite Ef. unfold invocations in *. simpl. congruence.
  - by rewrite E1.
  - intros pre caller now post ->.
    apply Forall_app in F as [Fpre _].
    destruct (pending_run pre _ id _ P1 Fpre) as (Pp & _).
    rewrite !run_cons, run_app, run_singleton.
    set (sp := run TTL (step TTL s first) pre) in *.
    destruct (pending_step sp (Call key (Some c) caller now) id _ Pp)
      as (_ & _ & D); [done |].
    apply D. unfold callers_of, entry_id.
    destruct (decide (key = "")); [done |].
    by rewrite decide_True.
  - by rewrite Ef.
  - rewrite Ef. simpl. apply lookup_insert_eq.
Qed.

End Singleflight.

(* ===================================================================== *)
(** ** The proxy class *)
(* ===================================================================== *)

Section AccountFacts.
Context {S : Type}.
Context {Category : Type} `{Countable Category} `{!CacheConfig Category}.

Local Abbreviation World := (@World S Category _ _).
Local Abbreviation BaseAccount := (@BaseAccount S).
Local Abbreviation CachedBlockchainAccount := (@CachedBlockchainAccount S).

Implicit Types (w : World) (b : BaseAccount) (this : CachedBlockchainAccount).
Implicit Types (name key : string) (args : list JsValue) (m : Method).
Implicit Types (type : option Category) (v : JsValue).

(* =================================================================== *)
(** ** Forwarding *)
(* =================================================================== *)

(** One call of the base object: what comes back and what is recorded. *)
Lemma invoke_eq (b : BaseAccount) (name : string) (args : list JsValue)
    (w : World) :
  invoke b name args w =
    (settle (method b name args (base_state w)).1,
     mkWorld (method b name args (base_state w)).2 (store w) (clock w)
             (trace w ++ [(name, args)]) (requested w)).
Proof.
  unfold invoke. destruct (method b name args (base_state w)) as [[v|e] s'];
    reflexivity.
Qed.

(** C9. [getNftBids] is an adapter and nothing more: it calls the base
    object's [getNftsBids] once, with the argument list it was given, and
    the caller receives what that call returned or threw; the cache is
    neither read nor written. *)
Theorem getNftBids_is_pure_adapter
    (this : CachedBlockchainAccount) (args : list JsValue) (w : World) :
  let r := getNftBids this args w in
  r = invoke (base this) "getNftsBids" args w ∧
  r.1 = settle (method (base this) "getNftsBids" args (base_state w)).1 ∧
  base_state r.2 = (method (base this) "getNftsBids" args (base_state w)).2 ∧
  trace r.2 = trace w ++ [("getNftsBids", args)] ∧
  store r.2 = store w ∧ requested r.2 = requested w.
Proof.
  unfold getNftBids. cbv zeta. rewrite invoke_eq. simpl. done.
Qed.

(** C2 (amended). Every method that does not go through the cache makes
    exactly one call on the base object and hands its outcome to the
    caller unchanged.  The method called has the proxy method's name,
    except that [getNftBids] calls [getNftsBids]; the arguments are the
    caller's, except that the methods declared without parameters call
    the base with no arguments. *)
Theorem pass_through_forwards_once
    (this : CachedBlockchainAccount) (m : Method) (args : list JsValue)
    (w : World) :
  cached m = false →
  let name := if decide (m = GetNftBids) then "getNftsBids"
              else method_name m in
  let sent := if takes_args m then args else [] in
  let r := call this m args w in
  r = invoke (base this) name sent w ∧
  r.1 = settle (method (base this) name sent (base_state w)).1 ∧
  base_state r.2 = (method (base this) name sent (base_state w)).2 ∧
  trace r.2 = trace w ++ [(name, sent)] ∧
  store r.2 = store w ∧ requested r.2 = requested w.
Proof.
  intros Hc name sent r.
  assert (r = invoke (base this) name sent w) as ->.
  { subst r name sent. destruct m; try discriminate Hc; reflexivity. }
  rewrite invoke_eq. simpl. done.
Qed.

(* =================================================================== *)
(** ** What [cache] does with a call of the base object as its factory *)
(* =================================================================== *)

Lemma cache_invalid key type (fn : M JsValue) w :
  entry_id key type = None →
  cache key type fn w = (Thrown InvalidKey, note_request key type w).
Proof. intros E. unfold cache. simpl. by rewrite E. Qed.

Lemma cache_hit key type id (fn : M JsValue) w v t :
  entry_id key type = Some id →
  store w !! id = Some (Ready v t) →
  clock w - t < TTL id.2 →
  cache key type fn w = (Fulfilled v, note_request key type w).
Proof.
  intros E L F. unfold cache, enter. simpl. rewrite E, L. simpl.
  by rewrite decide_True.
Qed.

Lemma cache_miss key type id b name args w :
  entry_id key type = Some id →
  idle TTL id.2 (clock w) (store w !! id) = true →
  cache key type (invoke b name args) w =
    let '(o, s') := method b name args (base_state w) in
    (settle o,
     mkWorld s'
       match o with
       | Returned v => <[id := Ready v (clock w)]> (store w)
       | Failed _ => delete id (store w)
       end
       (clock w) (trace w ++ [(name, args)])
       (requested w ++ [(key, type)])).
Proof.
  intros E I. unfold cache. simpl. rewrite E, (idle_enter _ _ _ _ _ I).
  rewrite invoke_eq. simpl.
  destruct (method b name args (base_state w)) as [[v|e] s']; simpl.
  - unfold with_store, resolve. simpl. rewrite lookup_insert_eq. simpl.
    by rewrite insert_insert_eq.
  - unfold with_store, reject. simpl. rewrite lookup_insert_eq. simpl.
    by rewrite delete_insert_eq.
Qed.

(** Whatever the store holds, [cache] notes the request and the factory
    adds none of its own. *)
Lemma cache_requested key type b name args w :
  requested (cache key type (invoke b name args) w).2 =
    requested w ++ [(key, type)].
Proof.
  unfold cache. simpl. destruct (entry_id key type) as [id|]; [|done].
  destruct (enter _ _ _ _ _) as [[v| |] m]; simpl; try done.
  rewrite invoke_eq. simpl.
  by destruct (method b name args _).1.
Qed.

(** [baseKey] when the base object answers with its receive address. *)
Lemma baseKey_eq this w a s' :
  method (base this) "getReceiveAddress" [] (base_state w)
    = (Returned a, s') →
  baseKey this w =
    (Fulfilled (network_id (network this) +:+ "-" +:+ to_string a),
     mkWorld s' (store w) (clock w)
             (trace w ++ [("getReceiveAddress", [])]) (requested w)).
Proof. intros E. unfold baseKey, mbind, M_bind. rewrite invoke_eq, E. done. Qed.

Lemma bind_baseKey this w a s' {B} (k : string → M B) :
  method (base this) "getReceiveAddress" [] (base_state w)
    = (Returned a, s') →
  (baseKey this ≫= k) w =
    k (network_id (network this) +:+ "-" +:+ to_string a)
      (mkWorld s' (store w) (clock w)
               (trace w ++ [("getReceiveAddress", [])]) (requested w)).
Proof.
  intros E. unfold mbind at 1. unfold M_bind at 1.
  by rewrite (baseKey_eq _ _ _ _ E).
Qed.

(* =================================================================== *)
(** ** Key derivation *)
(* =================================================================== *)

(** The request of a lookup scoped to a whole account. *)
Lemma whole_account_requested this m args w a s' :
  whole_account m = true →
  method (base this) "getReceiveAddress" [] (base_state w)
    = (Returned a, s') →
  requested (call this m args w).2 =
    requested w ++
    [(network_id (network this) +:+ "-" +:+ to_string a,
      CACHE_TYPES (category_property m))].
Proof.
  intros Hm Ha.
  destruct m; try discriminate Hm; simpl;
    unfold getBalance, getAllNfts, getAllNftsGrouped, getRecentTransactions;
    rewrite (bind_baseKey _ _ _ _ _ Ha), cache_requested; done.
Qed.

(** C5. The four lookups scoped to a whole account ([getBalance],
    [getAllNfts], [getAllNftsGrouped], [getRecentTransactions]) hand
    [cache] a key made of the network identifier and the receive address,
    together with the category of the method, and nothing else: the
    arguments of the call and the rest of the world do not enter, so two
    calls that agree on the three address the same entry. *)
Theorem whole_account_key
    (this this' : CachedBlockchainAccount) (m : Method)
    (args args' : list JsValue) (w w' : World) (a : JsValue) (s1 s2 : S) :
  whole_account m = true →
  method (base this) "getReceiveAddress" [] (base_state w)
    = (Returned a, s1) →
  method (base this') "getReceiveAddress" [] (base_state w')
    = (Returned a, s2) →
  network_id (network this) = network_id (network this') →
  let r := (network_id (network this) +:+ "-" +:+ to_string a,
            CACHE_TYPES (category_property m)) in
  requested (call this m args w).2 = requested w ++ [r] ∧
  requested (call this' m args' w').2 = requested w' ++ [r].
Proof.
  intros Hm Ha Ha' Hn r. subst r.
  rewrite (whole_account_requested _ _ args _ _ _ Hm Ha).
  rewrite (whole_account_requested _ _ args' _ _ _ Hm Ha').
  by rewrite Hn.
Qed.



(** Whatever [CACHE_TYPES] is, the request of [getAllNftsGrouped] is under
    the category of [NFTS_GROUPED] exactly when the table holds one
    category under both names. *)
Lemma getAllNftsGrouped_under_NFTS_GROUPED_iff this w a s' :
  method (base this) "getReceiveAddress" [] (base_state w)
    = (Returned a, s') →
  requested (getAllNftsGrouped this w).2
    = requested w ++ [(network_id (network this) +:+ "-" +:+ to_string a,
                       CACHE_TYPES "NFTS_GROUPED")]
  ↔ CACHE_TYPES "NFTS" = CACHE_TYPES "NFTS_GROUPED".
Proof.
  intros Ha. unfold getAllNftsGrouped.
  rewrite (bind_baseKey _ _ _ _ _ Ha), cache_requested. simpl. split.
  - intros E. apply app_inv_head in E. by injection E.
  - by intros ->.
Qed.

(** The request of [getNft]: the base key, a [-], and the arguments
    joined by [-]. *)
Lemma getNft_requested this args w a s' :
  method (base this) "getReceiveAddress" [] (base_state w)
    = (Returned a, s') →
  requested (getNft this args w).2 =
    requested w ++
    [((network_id (network this) +:+ "-" +:+ to_string a)
        +:+ "-" +:+ join "-" args,
      CACHE_TYPES "SINGLE_NFT")].
Proof.
  intros Ha. unfold getNft.
  by rewrite (bind_baseKey _ _ _ _ _ Ha), cache_requested.
Qed.

(** A key that contains the separator is not empty. *)
Lemma dashed_key_nonempty (x y : string) : x +:+ "-" +:+ y ≠ "".
Proof. by destruct x. Qed.

(** C8. For one account, [getNft("mint-123")] and [getNft("mint-456")]
    hand [cache] two different keys, both of which extend the account's
    base key, and produce two cache entries: after the two calls the
    store holds what the base returned for the first mint under the first
    key and what it returned for the second under the second. *)
Theorem getNft_mints_have_distinct_entries
    (this : CachedBlockchainAccount) (w : World) (a v1 v2 : JsValue)
    (c : Category) (s1 s2 : S) :
  CACHE_TYPES "SINGLE_NFT" = Some c →
  (∀ s, method (base this) "getReceiveAddress" [] s = (Returned a, s)) →
  let bk := network_id (network this) +:+ "-" +:+ to_string a in
  let k1 := bk +:+ "-" +:+ "mint-123" in
  let k2 := bk +:+ "-" +:+ "mint-456" in
  idle TTL c (clock w) (store w !! (k1, c)) = true →
  idle TTL c (clock w) (store w !! (k2, c)) = true →
  method (base this) "getNft" [VStr "mint-123"] (base_state w)
    = (Returned v1, s1) →
  method (base this) "getNft" [VStr "mint-456"] s1 = (Returned v2, s2) →
  let r1 := getNft this [VStr "mint-123"] w in
  let r2 := getNft this [VStr "mint-456"] r1.2 in
  k1 ≠ k2 ∧
  requested r2.2 = requested w ++ [(k1, Some c); (k2, Some c)] ∧
  r1.1 = Fulfilled v1 ∧ r2.1 = Fulfilled v2 ∧
  store r2.2 !! (k1, c) = Some (Ready v1 (clock w)) ∧
  store r2.2 !! (k2, c) = Some (Ready v2 (clock w)).
Proof.
  intros Hc Ha bk k1 k2 I1 I2 V1 V2 r1 r2.
  assert (Hk : k1 ≠ k2).
  { subst k1 k2. intros E. by apply str_app_cancel_l in E. }
  assert (Hid1 : entry_id k1 (Some c) = Some (k1, c)).
  { unfold entry_id. rewrite decide_False; [done |].
    apply dashed_key_nonempty. }
  assert (Hid2 : entry_id k2 (Some c) = Some (k2, c)).
  { unfold entry_id. rewrite decide_False; [done |].
    apply dashed_key_nonempty. }
  assert (E1 : r1 = (Fulfilled v1,
            mkWorld s1 (<[(k1, c) := Ready v1 (clock w)]> (store w))
              (clock w)
              ((trace w ++ [("getReceiveAddress", [])])
                 ++ [("getNft", [VStr "mint-123"])])
              (requested w ++ [(k1, Some c)]))).
  { subst r1. unfold getNft.
    rewrite (bind_baseKey _ _ _ _ _ (Ha _)), Hc.
    change (join "-" [VStr "mint-123"]) with "mint-123". fold bk k1.
    erewrite cache_miss; [| exact Hid1 | exact I1].
    simpl. by rewrite V1. }
  assert (E2 : r2 = (Fulfilled v2,
            mkWorld s2
              (<[(k2, c) := Ready v2 (clock w)]>
                 (<[(k1, c) := Ready v1 (clock w)]> (store w)))
              (clock w)
              ((((trace w ++ [("getReceiveAddress", [])])
                   ++ [("getNft", [VStr "mint-123"])])
                  ++ [("getReceiveAddress", [])])
                 ++ [("getNft", [VStr "mint-456"])])
              ((requested w ++ [(k1, Some c)]) ++ [(k2, Some c)]))).
  { subst r2. rewrite E1. unfold getNft.
    rewrite (bind_baseKey _ _ _ _ _ (Ha _)), Hc.
    change (join "-" [VStr "mint-456"]) with "mint-456". fold bk k2.
    erewrite cache_miss; [| exact Hid2 |].
    - simpl. by rewrite V2.
    - simpl. rewrite lookup_insert_ne; [exact I2 | congruence]. }
  rewrite E2, E1. simpl.
  split; [exact Hk |]. split; [by rewrite <- app_assoc |].
  split; [done |]. split; [done |]. split.
  - rewrite lookup_insert_ne by congruence. apply lookup_insert_eq.
  - apply lookup_insert_eq.
Qed.

(** C3 (amended). On one account, two different non-empty argument
    lists made of strings that contain no [-] give [getNft] two
    different keys. *)
Theorem getNft_plain_ids_have_distinct_keys
    (this : CachedBlockchainAccount) (w1 w2 : World) (a : JsValue)
    (s1 s2 : S) (ids1 ids2 : list string) :
  method (base this) "getReceiveAddress" [] (base_state w1)
    = (Returned a, s1) →
  method (base this) "getReceiveAddress" [] (base_state w2)
    = (Returned a, s2) →
  ids1 ≠ [] → ids2 ≠ [] →
  Forall (λ s, Str.dash_free s = true) ids1 →
  Forall (λ s, Str.dash_free s = true) ids2 →
  ids1 ≠ ids2 →
  ∃ k1 k2,
    requested (getNft this (VStr <$> ids1) w1).2
      = requested w1 ++ [(k1, CACHE_TYPES "SINGLE_NFT")] ∧
    requested (getNft this (VStr <$> ids2) w2).2
      = requested w2 ++ [(k2, CACHE_TYPES "SINGLE_NFT")] ∧
    k1 ≠ k2.
Proof.
  intros H1 H2 N1 N2 F1 F2 Hne.
  eexists _, _.
  rewrite (getNft_requested _ _ _ _ _ H1), (getNft_requested _ _ _ _ _ H2).
  split; [done | split; [done |]].
  intros E. apply Hne.
  apply str_app_cancel_l, str_app_cancel_l in E.
  by apply join_strings_inj.
Qed.

Lemma cached_requested this m args w a s' :
  cached m = true →
  method (base this) "getReceiveAddress" [] (base_state w)
    = (Returned a, s') →
  requested (call this m args w).2 =
    requested w ++
    [(key_of m (network_id (network this)) a args,
      CACHE_TYPES (category_property m))].
Proof.
  intros Hm Ha.
  destruct m; try discriminate Hm.
  1, 2, 4, 5: by apply (whole_account_requested _ _ _ _ _ s').
  - by apply (getNft_requested _ _ _ _ s').
  - simpl. unfold getAvailableTokens. by rewrite cache_requested.
  - simpl. unfold getFeaturedTokens. by rewrite cache_requested.
Qed.







(* =================================================================== *)
(** ** Cached calls in sequence *)
(* =================================================================== *)

(** C10. [getRecentTransactions] takes arguments and leaves them out of
    its key: a call with arguments [a] that has to compute stores what
    the base object returned for [a] under the account's base key and
    the category of [TRANSACTIONS]; a later call with any arguments [b]
    inside the freshness window uses the same key and category, is
    answered with that value, and the base object's
    [getRecentTransactions] is not called (its receive address is read to
    build the key, nothing more). *)
Theorem getRecentTransactions_ignores_arguments
    (this : CachedBlockchainAccount) (a b : list JsValue) (w : World)
    (addr v : JsValue) (s' : S) (c : Category) (d : Z) :
  CACHE_TYPES "TRANSACTIONS" = Some c →
  (∀ s, method (base this) "getReceiveAddress" [] s = (Returned addr, s)) →
  let key := network_id (network this) +:+ "-" +:+ to_string addr in
  idle TTL c (clock w) (store w !! (key, c)) = true →
  method (base this) "getRecentTransactions" a (base_state w)
    = (Returned v, s') →
  0 ≤ d < TTL c →
  let r1 := getRecentTransactions this a w in
  let r2 := getRecentTransactions this b (advance d r1.2) in
  r1.1 = Fulfilled v ∧
  requested r1.2 = requested w ++ [(key, Some c)] ∧
  requested r2.2 = requested r1.2 ++ [(key, Some c)] ∧
  r2.1 = Fulfilled v ∧
  trace r2.2 = trace r1.2 ++ [("getReceiveAddress", [])] ∧
  base_state r2.2 = base_state r1.2 ∧
  store r2.2 = store r1.2.
Proof.
  intros Hc Ha key Hidle Hv Hd r1 r2.
  assert (Hid : entry_id key (Some c) = Some (key, c)).
  { unfold entry_id. rewrite decide_False; [done |].
    subst key. by destruct (network_id (network this)). }
  assert (E1 : r1 = (Fulfilled v,
            mkWorld s' (<[(key, c) := Ready v (clock w)]> (store w))
              (clock w)
              ((trace w ++ [("getReceiveAddress", [])])
                 ++ [("getRecentTransactions", a)])
              (requested w ++ [(key, Some c)]))).
  { subst r1. unfold getRecentTransactions.
    rewrite (bind_baseKey _ _ _ _ _ (Ha _)), Hc. fold key.
    erewrite cache_miss; [| exact Hid | exact Hidle].
    simpl. by rewrite Hv. }
  assert (E2 : r2 = (Fulfilled v,
            mkWorld s' (<[(key, c) := Ready v (clock w)]> (store w))
              (clock w + d)
              (((trace w ++ [("getReceiveAddress", [])])
                 ++ [("getRecentTransactions", a)])
                 ++ [("getReceiveAddress", [])])
              ((requested w ++ [(key, Some c)]) ++ [(key, Some c)]))).
  { subst r2. rewrite E1. unfold getRecentTransactions.
    rewrite (bind_baseKey _ _ _ _ _ (Ha _)), Hc. fold key. simpl.
    erewrite (cache_hit _ _ _ _ _ _ _ Hid); [done | apply lookup_insert_eq |].
    simpl. lia. }
  rewrite E2, E1. simpl. done.
Qed.

End AccountFacts.

(* ===================================================================== *)
(** ** The sample account: instances and counterexamples *)
(* ===================================================================== *)

Section SampleFacts.
Import Sample.

Local Abbreviation alice_key := "solana-devnet-7xKXtg2CW87d".

(** Three callers ask for the balance entry while it is computed, a
    fourth asks for another entry in between; the computation then
    produces 42. *)
Lemma singleflight_sample :
  let evs := [ Call alice_key (Some BALANCE) 2%nat 1001;
               Call "solana-devnet" (Some AVAILABLE_TOKENS) 9%nat 1001;
               Call alice_key (Some BALANCE) 3%nat 1002 ] in
  let mid := run sample_TTL s0
                 (Call alice_key (Some BALANCE) 1%nat 1000 :: evs) in
  let fin := step sample_TTL mid (Resolved alice_key BALANCE (VNum 42) 1005) in
  invocations (alice_key, BALANCE) fin = 1%nat ∧
  delivered mid = [] ∧
  delivered fin = [ (1%nat, Returned (VNum 42));
                    (2%nat, Returned (VNum 42));
                    (3%nat, Returned (VNum 42)) ].
Proof.
  intros evs mid fin.
  destruct (singleflight sample_TTL s0 alice_key BALANCE 1%nat 1000 evs
              (VNum 42) 1005) as (I & _ & _ & D & _).
  - discriminate.
  - reflexivity.
  - repeat constructor.
  - split; [exact I | split; [reflexivity | exact D]].
Defined.

(** [getReceiveAddress] is forwarded under its own name with the
    caller's arguments. *)
Lemma pass_through_sample :
  let r := call alice GetReceiveAddress [VNum 0] w0 in
  r.1 = Fulfilled (VStr "7xKXtg2CW87d") ∧
  trace r.2 = [("getReceiveAddress", [VNum 0])].
Proof.
  intros r.
  destruct (pass_through_forwards_once alice GetReceiveAddress [VNum 0] w0)
    as (_ & R & _ & T & _).
  - reflexivity.
  - split; [exact R | exact T].
Defined.

(** C2, as stated, fails.  The proxy's [getNftBids] succeeds on a base
    object that has [getNftsBids] and no method named [getNftBids], where
    the call of the same name on the base throws; and the proxy's
    [getTokens] called with an argument calls the base without it. *)
Lemma pass_through_same_name_same_arguments_fails :
  cached GetNftBids = false ∧ cached GetTokens = false ∧
  (call alice GetNftBids [VStr "mint-123"] w0).1 = Fulfilled (VStr "bids") ∧
  (invoke (base alice) (method_name GetNftBids) [VStr "mint-123"] w0).1
    = Thrown (VStr "TypeError: not a function") ∧
  (call alice GetTokens [VStr "USDC"] w0).1 = Fulfilled VUndefined ∧
  (invoke (base alice) (method_name GetTokens) [VStr "USDC"] w0).1
    = Fulfilled (VStr "USDC") ∧
  call alice GetNftBids [VStr "mint-123"] w0
    ≠ invoke (base alice) (method_name GetNftBids) [VStr "mint-123"] w0 ∧
  call alice GetTokens [VStr "USDC"] w0
    ≠ invoke (base alice) (method_name GetTokens) [VStr "USDC"] w0.
Proof.
  repeat split; try reflexivity.
  - intros E. apply (f_equal fst) in E. discriminate E.
  - intros E. apply (f_equal fst) in E. discriminate E.
Qed.

(** The keys of [getNft] for plain identifiers. *)
Lemma getNft_plain_ids_sample :
  ∃ k1 k2,
    requested (getNft alice (VStr <$> ["mint1"]) w0).2
      = requested w0 ++ [(k1, CACHE_TYPES "SINGLE_NFT")] ∧
    requested (getNft alice (VStr <$> ["mint1"; "mint2"]) w0).2
      = requested w0 ++ [(k2, CACHE_TYPES "SINGLE_NFT")] ∧
    k1 ≠ k2.
Proof.
  apply (getNft_plain_ids_have_distinct_keys alice w0 w0
           (VStr "7xKXtg2CW87d") 0%nat 0%nat ["mint1"] ["mint1"; "mint2"]).
  - reflexivity.
  - reflexivity.
  - discriminate.
  - discriminate.
  - repeat constructor.
  - repeat constructor.
  - discriminate.
Defined.

(** C3, as stated, fails: the argument lists [("a", "b-c")] and
    [("a-b", "c")] differ and [getNft] derives one key for both. *)
Lemma getNft_joined_keys_collide :
  [VStr "a"; VStr "b-c"] ≠ [VStr "a-b"; VStr "c"] ∧
  requested (getNft alice [VStr "a"; VStr "b-c"] w0).2
    = [("solana-devnet-7xKXtg2CW87d-a-b-c", Some SINGLE_NFT)] ∧
  requested (getNft alice [VStr "a-b"; VStr "c"] w0).2
    = [("solana-devnet-7xKXtg2CW87d-a-b-c", Some SINGLE_NFT)].
Proof. split; [discriminate | split; reflexivity]. Qed.



(** The separator of [baseKey] may also occur in its parts: the accounts
    of network [a-b] with address [c] and of network [a] with address
    [b-c] have one key. *)
Example base_keys_collide_on_dashes :
  requested (getBalance (account "a-b" "c") [] w0).2
    = requested (getBalance (account "a" "b-c") [] w0).2.
Proof. reflexivity. Qed.

(** The key of [getRecentTransactions] for the sample account. *)
Lemma whole_account_key_sample :
  requested (call alice GetRecentTransactions [VNum 5] w0).2
    = [("solana-devnet-7xKXtg2CW87d", Some TRANSACTIONS)] ∧
  requested (call alice GetRecentTransactions [VNum 50] (advance 10 w0)).2
    = [("solana-devnet-7xKXtg2CW87d", Some TRANSACTIONS)].
Proof.
  pose proof (whole_account_key alice alice GetRecentTransactions
                [VNum 5] [VNum 50] w0 (advance 10 w0)
                (VStr "7xKXtg2CW87d") 0%nat 0%nat) as W.
  exact (W eq_refl eq_refl eq_refl eq_refl).
Defined.




(** The two mints on the sample account. *)
Lemma getNft_mints_sample :
  let r1 := getNft alice [VStr "mint-123"] w0 in
  let r2 := getNft alice [VStr "mint-456"] r1.2 in
  "solana-devnet-7xKXtg2CW87d-mint-123"
    ≠ "solana-devnet-7xKXtg2CW87d-mint-456" ∧
  requested r2.2
    = [("solana-devnet-7xKXtg2CW87d-mint-123", Some SINGLE_NFT);
       ("solana-devnet-7xKXtg2CW87d-mint-456", Some SINGLE_NFT)] ∧
  r1.1 = Fulfilled (VStr "nft mint-123") ∧
  r2.1 = Fulfilled (VStr "nft mint-456") ∧
  store r2.2 !! ("solana-devnet-7xKXtg2CW87d-mint-123", SINGLE_NFT)
    = Some (Ready (VStr "nft mint-123") 1000) ∧
  store r2.2 !! ("solana-devnet-7xKXtg2CW87d-mint-456", SINGLE_NFT)
    = Some (Ready (VStr "nft mint-456") 1000).
Proof.
  pose proof (getNft_mints_have_distinct_entries alice w0
                (VStr "7xKXtg2CW87d") (VStr "nft mint-123")
                (VStr "nft mint-456") SINGLE_NFT 1%nat 2%nat) as W.
  exact (W eq_refl (λ _, eq_refl) eq_refl eq_refl eq_refl eq_refl).
Defined.

(** Asked for 5 transactions and, ten seconds later, for 50, the proxy
    answers the second call with what the base returned for 5. *)
Lemma getRecentTransactions_sample :
  let r1 := getRecentTransactions alice [VNum 5] w0 in
  let r2 := getRecentTransactions alice [VNum 50] (advance 10 r1.2) in
  r1.1 = Fulfilled (VNum 5) ∧ r2.1 = Fulfilled (VNum 5) ∧
  trace r2.2 = trace r1.2 ++ [("getReceiveAddress", [])].
Proof.
  intros r1 r2.
  destruct (getRecentTransactions_ignores_arguments alice [VNum 5]
              [VNum 50] w0 (VStr "7xKXtg2CW87d") (VNum 5) 1%nat
              TRANSACTIONS 10)
    as (V1 & _ & _ & V2 & T & _).
  - reflexivity.
  - intros n. reflexivity.
  - reflexivity.
  - reflexivity.
  - split; [discriminate | reflexivity].
  - split; [exact V1 | split; [exact V2 | exact T]].
Defined.

(** The keys of [getNft] may also collide across accounts when the joined
    arguments differ: network [solana], address [devnet], arguments
    [("X", "m")], and network [solana-devnet], address [X], argument
    [("m")]. *)
Example getNft_keys_collide_across_accounts :
  requested (getNft (account "solana" "devnet") [VStr "X"; VStr "m"] w0).2
    = requested (getNft (account "solana-devnet" "X") [VStr "m"] w0).2.
Proof. reflexivity. Qed.

End SampleFacts.

(* ===================================================================== *)
(** ** The class as a whole *)
(* ===================================================================== *)

Section ClassFacts.
Context {S : Type}.
Context {Category : Type} `{Countable Category} `{!CacheConfig Category}.

Local Abbreviation World := (@World S Category _ _).
Local Abbreviation BaseAccount := (@BaseAccount S).
Local Abbreviation CachedBlockchainAccount := (@CachedBlockchainAccount S).

Implicit Types (w : World) (b : BaseAccount) (this : CachedBlockchainAccount).
Implicit Types (name key : string) (args : list JsValue) (m : Method).
Implicit Types (type : option Category) (v e : JsValue).

Local Abbreviation asks_address := ("getReceiveAddress", @nil JsValue).

(** *** When the base object cannot tell its address *)

Lemma bind_baseKey_failed this w e s' {B} (k : string → M B) :
  method (base this) "getReceiveAddress" [] (base_state w) = (Failed e, s') →
  (baseKey this ≫= k) w =
    (Thrown e,
     mkWorld s' (store w) (clock w) (trace w ++ [asks_address])
             (requested w)).
Proof.
  intros E. unfold mbind at 1. unfold M_bind at 1.
  unfold baseKey, mbind, M_bind. by rewrite invoke_eq, E.
Qed.

Lemma account_scoped_call_failed this m args w e s' :
  account_scoped m = true →
  method (base this) "getReceiveAddress" [] (base_state w) = (Failed e, s') →
  call this m args w =
    (Thrown e,
     mkWorld s' (store w) (clock w) (trace w ++ [asks_address])
             (requested w)).
Proof.
  intros Hm He.
  destruct m; try discriminate Hm; simpl;
    unfold getBalance, getAllNfts, getNft, getAllNftsGrouped,
           getRecentTransactions;
    by rewrite (bind_baseKey_failed _ _ _ _ _ He).
Qed.

(** X1. When [getReceiveAddress] of the base object throws, each of the
    five cached methods that build their key from [baseKey()] fails with
    that very error: [cache] is not reached (no request is noted, the
    store is as it was), and the base object is asked for nothing else,
    whatever the store holds. *)
Theorem baseKey_failure_propagates
    (this : CachedBlockchainAccount) (m : Method) (args : list JsValue)
    (w : World) (e : JsValue) (s' : S) :
  account_scoped m = true →
  method (base this) "getReceiveAddress" [] (base_state w) = (Failed e, s') →
  let r := call this m args w in
  r.1 = Thrown e ∧
  trace r.2 = trace w ++ [asks_address] ∧
  requested r.2 = requested w ∧
  store r.2 = store w ∧
  base_state r.2 = s'.
Proof.
  intros Hm He r. subst r.
  by rewrite (account_scoped_call_failed _ _ _ _ _ _ Hm He).
Qed.

(** A method that is not cached is one call of the base object. *)
Lemma call_forward this m args :
  cached m = false →
  call this m args
    = invoke (base this) (base_method_name m) (forwarded_args m args).
Proof. intros Hc. destruct m; try discriminate Hc; reflexivity. Qed.

(** *** What a method calls on the base object *)

(** [cache] calls its factory once or not at all. *)
Lemma cache_calls_factory_at_most_once key type b name args w :
  trace (cache key type (invoke b name args) w).2 = trace w ++ [(name, args)]
  ∨ trace (cache key type (invoke b name args) w).2 = trace w.
Proof.
  unfold cache. simpl. destruct (entry_id key type) as [id|]; [|by right].
  destruct (enter _ _ _ _ _) as [[v| |] mm]; simpl; try by right.
  rewrite invoke_eq. simpl.
  destruct (method b name args _).1; simpl; by left.
Qed.

(** The calls a method makes on the base object, case by case. *)
Lemma call_trace this m args w :
  let before := if account_scoped m then [asks_address] else [] in
  let own := (base_method_name m, forwarded_args m args) in
  trace (call this m args w).2 = trace w ++ before ++ [own]
  ∨ (cached m = true ∧ trace (call this m args w).2 = trace w ++ before).
Proof.
  intros before own.
  destruct (cached m) eqn:Hc.
  - destruct (account_scoped m) eqn:Ha.
    + destruct (method (base this) "getReceiveAddress" [] (base_state w))
        as [[a|e] s'] eqn:E.
      * subst before own.
        destruct m; try discriminate Hc; try discriminate Ha; simpl;
          unfold getBalance, getAllNfts, getNft, getAllNftsGrouped,
                 getRecentTransactions;
          rewrite (bind_baseKey _ _ _ _ _ E);
          match goal with
          | |- context [cache ?k ?t (invoke ?b ?n ?a) ?w'] =>
              destruct (cache_calls_factory_at_most_once k t b n a w')
                as [-> | ->]
          end; simpl; rewrite <- ?app_assoc; auto.
      * right. split; [done |].
        by rewrite (account_scoped_call_failed _ _ _ _ _ _ Ha E).
    + subst before own.
      destruct m; try discriminate Hc; try discriminate Ha; simpl;
        unfold getAvailableTokens, getFeaturedTokens;
        match goal with
        | |- context [cache ?k ?t (invoke ?b ?n ?a) ?w'] =>
            destruct (cache_calls_factory_at_most_once k t b n a w')
              as [-> | ->]
        end; rewrite ?app_nil_r; auto.
  - left. subst before own. rewrite (call_forward _ _ _ Hc), invoke_eq.
    destruct m; try discriminate Hc; reflexivity.
Qed.

(** X2. Whatever the store holds, the calls a method of the class makes
    on the base object are, in this order: [getReceiveAddress()] once if
    the method builds its key from [baseKey()], and then its own
    counterpart (the method of the same name, [getNftsBids] for
    [getNftBids]) once with the forwarded arguments; a cached method may
    leave the counterpart out, a method that is not cached never does. *)
Theorem base_calls_of_a_method
    (this : CachedBlockchainAccount) (m : Method) (args : list JsValue)
    (w : World) :
  let before := if account_scoped m then [asks_address] else [] in
  let own := (base_method_name m, forwarded_args m args) in
  let calls := drop (length (trace w)) (trace (call this m args w).2) in
  trace (call this m args w).2 = trace w ++ calls ∧
  (calls = before ++ [own] ∨ (cached m = true ∧ calls = before)).
Proof.
  intros before own calls. subst calls.
  destruct (call_trace this m args w) as [E | [Hc E]];
    fold before own in E; rewrite E, drop_app_length; auto.
Qed.

(** X3. Only [retrieveSecurePrivateKey] of the class ever calls
    [retrieveSecurePrivateKey] of the base object: no call of any other
    method, with any arguments and any store, reaches it. *)
Theorem private_key_only_on_request
    (this : CachedBlockchainAccount) (m : Method) (args : list JsValue)
    (w : World) :
  m ≠ RetrieveSecurePrivateKey →
  ∀ c, c ∈ drop (length (trace w)) (trace (call this m args w).2) →
       c.1 ≠ "retrieveSecurePrivateKey".
Proof.
  intros Hm c Hc.
  assert (Hown : base_method_name m ≠ "retrieveSecurePrivateKey").
  { destruct m; try done; discriminate. }
  destruct (call_trace this m args w) as [E | [_ E]];
    rewrite E, drop_app_length in Hc;
    destruct (account_scoped m); simpl in Hc;
    repeat (apply elem_of_cons in Hc as [-> | Hc]);
    try (by apply elem_of_nil in Hc); simpl; try done; discriminate.
Qed.


(** *** The keys of [getNft] *)

Lemma str_app_assoc (x y z : string) : (x +:+ y) +:+ z = x +:+ (y +:+ z).
Proof.
  induction x as [|c x IH]; [done |].
  rewrite !str_app_cons. by rewrite IH.
Qed.

(** [join] reads its elements only through their texts. *)
Lemma join_by_texts (sep : string) (args1 args2 : list JsValue) :
  join_element <$> args1 = join_element <$> args2 →
  join sep args1 = join sep args2.
Proof.
  revert args2. induction args1 as [|x [|x' r] IH]; intros [|y [|y' r']] E;
    try discriminate E; [done | |].
  - simpl in E. injection E as E. done.
  - rewrite !fmap_cons in E. injection E as Ex Ey Er.
    rewrite !join_cons2, Ex. do 2 f_equal.
    apply IH. rewrite !fmap_cons. by rewrite Ey, Er.
Qed.

(** Two neighbours joined by hand are joined again the same way. *)
Lemma join_flatten (x y : string) (rest : list JsValue) :
  join "-" (VStr x :: VStr y :: rest)
    = join "-" (VStr (x +:+ "-" +:+ y) :: rest).
Proof.
  destruct rest as [|z r]; [reflexivity |].
  rewrite (join_cons2 _ (VStr x)), (join_cons2 _ (VStr y)), !join_cons2.
  simpl join_element. by rewrite !str_app_assoc.
Qed.

(** X4. On one account, two calls of [getNft] hand [cache] the same key if
    and only if their argument lists, joined by [-], give the same text. *)
Theorem getNft_keys_coincide_iff_joins_do
    (this : CachedBlockchainAccount) (args1 args2 : list JsValue)
    (w1 w2 : World) (a : JsValue) (s1 s2 : S) :
  method (base this) "getReceiveAddress" [] (base_state w1)
    = (Returned a, s1) →
  method (base this) "getReceiveAddress" [] (base_state w2)
    = (Returned a, s2) →
  ∃ k1 k2,
    requested (getNft this args1 w1).2
      = requested w1 ++ [(k1, CACHE_TYPES "SINGLE_NFT")] ∧
    requested (getNft this args2 w2).2
      = requested w2 ++ [(k2, CACHE_TYPES "SINGLE_NFT")] ∧
    (k1 = k2 ↔ join "-" args1 = join "-" args2).
Proof.
  intros H1 H2. eexists _, _.
  rewrite (getNft_requested _ _ _ _ _ H1), (getNft_requested _ _ _ _ _ H2).
  split; [done | split; [done |]]. split.
  - intros E. by apply str_app_cancel_l, str_app_cancel_l in E.
  - by intros ->.
Qed.

(** X5. [getNft] cannot tell two neighbouring string arguments from the
    one string that joins them with [-]: [getNft(x, y, ...rest)] and
    [getNft(x + "-" + y, ...rest)] make the same request. *)
Theorem getNft_flattens_neighbours
    (this : CachedBlockchainAccount) (x y : string) (rest : list JsValue)
    (w1 w2 : World) (a : JsValue) (s1 s2 : S) :
  method (base this) "getReceiveAddress" [] (base_state w1)
    = (Returned a, s1) →
  method (base this) "getReceiveAddress" [] (base_state w2)
    = (Returned a, s2) →
  ∃ r,
    requested (getNft this (VStr x :: VStr y :: rest) w1).2
      = requested w1 ++ [r] ∧
    requested (getNft this (VStr (x +:+ "-" +:+ y) :: rest) w2).2
      = requested w2 ++ [r].
Proof.
  intros H1 H2. eexists.
  rewrite (getNft_requested _ _ _ _ _ H1), (getNft_requested _ _ _ _ _ H2).
  by rewrite join_flatten.
Qed.

(** X6. [getNft] reads its arguments only through their texts, where
    [undefined] and [null] count as the empty text: for arguments whose
    numbers are integers JavaScript represents exactly, argument lists
    that agree text by text make the same request (a number and its
    decimal text, [null] and the empty string), and so do the empty list
    and a list of one argument whose text is empty. *)
Theorem getNft_reads_arguments_as_texts
    (this : CachedBlockchainAccount) (args1 args2 : list JsValue)
    (w1 w2 : World) (a : JsValue) (s1 s2 : S) :
  method (base this) "getReceiveAddress" [] (base_state w1)
    = (Returned a, s1) →
  method (base this) "getReceiveAddress" [] (base_state w2)
    = (Returned a, s2) →
  Forall (λ v, safe_number v = true) args1 →
  Forall (λ v, safe_number v = true) args2 →
  join_element <$> args1 = join_element <$> args2
  ∨ (args1 = [] ∧ ∃ v, args2 = [v] ∧ join_element v = "") →
  ∃ r,
    requested (getNft this args1 w1).2 = requested w1 ++ [r] ∧
    requested (getNft this args2 w2).2 = requested w2 ++ [r].
Proof.
  intros H1 H2 _ _ Hargs. eexists.
  rewrite (getNft_requested _ _ _ _ _ H1), (getNft_requested _ _ _ _ _ H2).
  split; [done |].
  assert (J : join "-" args2 = join "-" args1); [| by rewrite J].
  destruct Hargs as [E | (-> & v & -> & E)].
  - symmetry. by apply join_by_texts.
  - simpl. by rewrite E.
Qed.

(** X7. The key of a method that builds it from [baseKey()] is never the
    empty string and always contains the separator, even when the network
    identifier and the address are empty. *)
Theorem account_keys_are_never_empty
    (this : CachedBlockchainAccount) (m : Method) (args : list JsValue)
    (w : World) (a : JsValue) (s' : S) :
  account_scoped m = true →
  method (base this) "getReceiveAddress" [] (base_state w)
    = (Returned a, s') →
  ∃ key type,
    requested (call this m args w).2 = requested w ++ [(key, type)] ∧
    key ≠ "" ∧ Str.dash_free key = false.
Proof.
  intros Hm Ha.
  assert (Hc : cached m = true) by (destruct m; done).
  eexists _, _. split; [exact (cached_requested _ _ _ _ _ _ Hc Ha) |].
  assert (D : Str.dash_free (key_of m (network_id (network this)) a args)
              = false).
  { unfold key_of. destruct m; try discriminate Hm; simpl;
      rewrite ?str_app_assoc, dash_app; apply dash_free_dash. }
  split; [| exact D].
  intros E. rewrite E in D. discriminate D.
Qed.

(** The key of [getNft], cut at its first two separators. *)
Lemma getNft_key_shape (n a j : string) :
  (n +:+ "-" +:+ a) +:+ "-" +:+ j
    = n +:+ String Str.dash (a +:+ String Str.dash j).
Proof. rewrite (str_app_assoc n ("-" +:+ a) ("-" +:+ j)). reflexivity. Qed.

(** X8. When neither the network identifiers nor the receive addresses
    contain [-], the key of [getNft] tells everything apart: two calls with
    the same key come from accounts with the same network identifier and
    the same address, and their joined arguments are the same. *)
Theorem getNft_key_determines_account
    (this1 this2 : CachedBlockchainAccount) (args1 args2 : list JsValue)
    (w1 w2 : World) (a1 a2 : string) (s1 s2 : S) (k1 k2 : string)
    (t1 t2 : option Category) :
  method (base this1) "getReceiveAddress" [] (base_state w1)
    = (Returned (VStr a1), s1) →
  method (base this2) "getReceiveAddress" [] (base_state w2)
    = (Returned (VStr a2), s2) →
  Str.dash_free (network_id (network this1)) = true →
  Str.dash_free (network_id (network this2)) = true →
  Str.dash_free a1 = true → Str.dash_free a2 = true →
  requested (getNft this1 args1 w1).2 = requested w1 ++ [(k1, t1)] →
  requested (getNft this2 args2 w2).2 = requested w2 ++ [(k2, t2)] →
  k1 = k2 →
  network_id (network this1) = network_id (network this2) ∧ a1 = a2 ∧
  join "-" args1 = join "-" args2.
Proof.
  intros H1 H2 N1 N2 A1 A2 R1 R2 E.
  rewrite (getNft_requested _ _ _ _ _ H1) in R1.
  rewrite (getNft_requested _ _ _ _ _ H2) in R2.
  apply app_inv_head in R1, R2.
  injection R1 as <- _. injection R2 as <- _.
  simpl in E. rewrite !getNft_key_shape in E.
  apply split_first_dash in E as [-> E]; [| done..].
  by apply split_first_dash in E as [-> ->].
Qed.

(** *** Calls in sequence *)

(** A script of calls that are not cached, run through the proxy, is the
    script of their counterparts run on the base object. *)
Lemma call_all_forward this (script : list (Method * list JsValue)) w :
  Forall (λ c, cached c.1 = false) script →
  call_all this script w =
    (settle <$> (invoke_all (base this) (direct_script script)
                            (base_state w)).1,
     mkWorld (invoke_all (base this) (direct_script script) (base_state w)).2
             (store w) (clock w) (trace w ++ direct_script script)
             (requested w)).
Proof.
  revert w. induction script as [|[m args] script IH]; intros w F.
  - simpl. rewrite app_nil_r. by destruct w.
  - apply Forall_cons in F as [Hc F]. simpl in Hc.
    simpl. rewrite (call_forward _ _ _ Hc), invoke_eq.
    destruct (method (base this) (base_method_name m) (forwarded_args m args)
                     (base_state w)) as [o s1].
    simpl. rewrite (IH _ F). simpl.
    destruct (invoke_all (base this) (direct_script script) s1) as [os s2].
    simpl. by rewrite <- app_assoc.
Qed.

(** X10. A caller that makes any sequence of calls of methods that are not
    cached gets from the proxy, call by call, what the same caller would
    get from the base object with the counterparts of these calls; the
    base object ends in the same state, and the store, the requests and
    the clock are as they were. *)
Theorem pass_through_scripts_are_transparent
    (this : CachedBlockchainAccount) (script : list (Method * list JsValue))
    (w : World) :
  Forall (λ c, cached c.1 = false) script →
  let r := call_all this script w in
  let d := invoke_all (base this) (direct_script script) (base_state w) in
  r.1 = settle <$> d.1 ∧
  base_state r.2 = d.2 ∧
  store r.2 = store w ∧ requested r.2 = requested w ∧ clock r.2 = clock w.
Proof.
  intros F r d. subst r d. by rewrite (call_all_forward _ _ _ F).
Qed.

(** A cached method is [cache] applied to its key, its category and the
    call of its namesake, after [getReceiveAddress()] if the key needs
    it. *)
Lemma cached_call_unfold this m args w a s1 :
  cached m = true →
  method (base this) "getReceiveAddress" [] (base_state w)
    = (Returned a, s1) →
  call this m args w =
    cache (key_of m (network_id (network this)) a args)
          (CACHE_TYPES (category_property m))
          (invoke (base this) (method_name m) (forwarded_args m args))
          (if account_scoped m
           then mkWorld s1 (store w) (clock w) (trace w ++ [asks_address])
                        (requested w)
           else w).
Proof.
  intros Hc Ha. destruct m; try discriminate Hc; simpl;
    unfold getBalance, getAllNfts, getNft, getAllNftsGrouped,
           getRecentTransactions, getAvailableTokens, getFeaturedTokens;
    rewrite ?(bind_baseKey _ _ _ _ _ Ha); reflexivity.
Qed.

(** X11. When no fresh value and no computation is there for its entry, a
    cached method asks the base object's method of the same name, with
    the caller's arguments if it is declared with [(...args)] and with
    none otherwise, and hands the caller what that call returned or
    threw; a value is then in the entry, a failure leaves none. *)
Theorem cached_miss_asks_the_namesake
    (this : CachedBlockchainAccount) (m : Method) (args : list JsValue)
    (w : World) (a : JsValue) (s1 : S) (id : string * Category) :
  cached m = true →
  method (base this) "getReceiveAddress" [] (base_state w)
    = (Returned a, s1) →
  entry_id (key_of m (network_id (network this)) a args)
           (CACHE_TYPES (category_property m)) = Some id →
  idle TTL id.2 (clock w) (store w !! id) = true →
  let o := method (base this) (method_name m) (forwarded_args m args)
                  (if account_scoped m then s1 else base_state w) in
  let r := call this m args w in
  r.1 = settle o.1 ∧
  base_state r.2 = o.2 ∧
  store r.2 !! id = match o.1 with
                    | Returned v => Some (Ready v (clock w))
                    | Failed _ => None
                    end.
Proof.
  intros Hc Ha Hid Hidle o r. subst o r.
  rewrite (cached_call_unfold _ _ _ _ _ _ Hc Ha).
  erewrite cache_miss; [| exact Hid | by destruct (account_scoped m)].
  destruct (account_scoped m); simpl;
    destruct (method (base this) (method_name m) _ _) as [[v|e] s2]; simpl;
    rewrite ?lookup_insert_eq, ?lookup_delete_eq; done.
Qed.

(** X12. No method of the class removes or refreshes an entry.  After a
    cached method has computed and stored [v], any sequence of calls that
    are not cached (transfers, listings, ...) leaves the entry as it is:
    a call of the cached method inside the freshness window, with any
    arguments that give the same key, is still answered [v], although the
    base object has moved on. *)
Theorem pass_through_calls_do_not_refresh
    (this : CachedBlockchainAccount) (m : Method) (args args' : list JsValue)
    (script : list (Method * list JsValue)) (w : World) (a v : JsValue)
    (s1 : S) (id : string * Category) (d : Z) :
  cached m = true →
  (∀ s, method (base this) "getReceiveAddress" [] s = (Returned a, s)) →
  entry_id (key_of m (network_id (network this)) a args)
           (CACHE_TYPES (category_property m)) = Some id →
  key_of m (network_id (network this)) a args'
    = key_of m (network_id (network this)) a args →
  idle TTL id.2 (clock w) (store w !! id) = true →
  method (base this) (method_name m) (forwarded_args m args) (base_state w)
    = (Returned v, s1) →
  Forall (λ c, cached c.1 = false) script →
  0 ≤ d < TTL id.2 →
  let r1 := call this m args w in
  let mid := (call_all this script r1.2).2 in
  let r2 := call this m args' (advance d mid) in
  r1.1 = Fulfilled v ∧
  r2.1 = Fulfilled v ∧
  base_state mid = (invoke_all (base this) (direct_script script) s1).2 ∧
  base_state r2.2 = base_state mid ∧
  store r2.2 = store r1.2.
Proof.
  intros Hc Ha Hid Hk Hidle Hv F Hd r1 mid r2.
  assert (E1 : ∃ tr rq,
             r1 = (Fulfilled v,
                   mkWorld s1 (<[id := Ready v (clock w)]> (store w))
                           (clock w) tr rq)).
  { subst r1. rewrite (cached_call_unfold _ _ _ _ _ _ Hc (Ha _)).
    erewrite cache_miss; [| exact Hid | by destruct (account_scoped m)].
    destruct (account_scoped m); simpl; rewrite Hv; simpl; eauto. }
  destruct E1 as (tr & rq & E1).
  assert (Em : ∃ tr', mid = mkWorld
               (invoke_all (base this) (direct_script script) s1).2
               (<[id := Ready v (clock w)]> (store w)) (clock w) tr' rq).
  { subst mid. rewrite E1, (call_all_forward _ _ _ F). simpl. eauto. }
  destruct Em as (tr' & Em).
  assert (E2 : r2.1 = Fulfilled v ∧ base_state r2.2 = base_state mid
               ∧ store r2.2 = store mid).
  { subst r2. rewrite (cached_call_unfold _ _ _ _ _ _ Hc (Ha _)), Hk.
    erewrite cache_hit; [| exact Hid | |].
    - by destruct (account_scoped m).
    - rewrite Em. destruct (account_scoped m); simpl; apply lookup_insert_eq.
    - rewrite Em. destruct (account_scoped m); simpl; lia. }
  destruct E2 as (V2 & B2 & S2).
  split; [by rewrite E1 |]. split; [exact V2 |].
  split; [by rewrite Em |]. split; [exact B2 |].
  rewrite S2, Em, E1. done.
Qed.

End ClassFacts.

(* ===================================================================== *)
(** ** The class as a whole, on the sample accounts *)
(* ===================================================================== *)

Section ClassSampleFacts.
Import Sample Offline.

(** [getNft] on the account that cannot tell its address. *)
Lemma baseKey_failure_sample :
  let r := call carol GetNft [VStr "mint-123"] w0 in
  r.1 = Thrown (VStr "Error: wallet locked") ∧
  trace r.2 = [("getReceiveAddress", [])] ∧
  requested r.2 = [] ∧ store r.2 = ∅ ∧ base_state r.2 = 0%nat.
Proof.
  exact (baseKey_failure_propagates carol GetNft [VStr "mint-123"] w0
           (VStr "Error: wallet locked") 0%nat eq_refl eq_refl).
Defined.

(** [getBalance] of the sample account does not reach the private key. *)
Lemma private_key_sample :
  Forall (λ c, c.1 ≠ "retrieveSecurePrivateKey")
         (drop (length (trace w0)) (trace (call alice GetBalance [] w0).2)).
Proof.
  apply Forall_forall.
  apply (private_key_only_on_request alice GetBalance [] w0).
  discriminate.
Defined.


(** Two arguments and their join, on the sample account. *)
Lemma getNft_keys_coincide_sample :
  ∃ k1 k2,
    requested (getNft alice [VStr "a"; VStr "b"] w0).2
      = requested w0 ++ [(k1, CACHE_TYPES "SINGLE_NFT")] ∧
    requested (getNft alice [VStr "a-b"] w0).2
      = requested w0 ++ [(k2, CACHE_TYPES "SINGLE_NFT")] ∧
    (k1 = k2 ↔ join "-" [VStr "a"; VStr "b"] = join "-" [VStr "a-b"]).
Proof.
  exact (getNft_keys_coincide_iff_joins_do alice [VStr "a"; VStr "b"]
           [VStr "a-b"] w0 w0 (VStr "7xKXtg2CW87d") 0%nat 0%nat
           eq_refl eq_refl).
Defined.

Lemma getNft_flattens_sample :
  ∃ r,
    requested (getNft alice [VStr "a"; VStr "b"; VNum 7] w0).2
      = requested w0 ++ [r] ∧
    requested (getNft alice [VStr ("a" +:+ "-" +:+ "b"); VNum 7] w0).2
      = requested w0 ++ [r].
Proof.
  exact (getNft_flattens_neighbours alice "a" "b" [VNum 7] w0 w0
           (VStr "7xKXtg2CW87d") 0%nat 0%nat eq_refl eq_refl).
Defined.

(** A number and [null] against a text and [undefined]. *)
Lemma getNft_texts_sample :
  ∃ r,
    requested (getNft alice [VNum 5; VNull] w0).2 = requested w0 ++ [r] ∧
    requested (getNft alice [VStr "5"; VUndefined] w0).2
      = requested w0 ++ [r].
Proof.
  apply (getNft_reads_arguments_as_texts alice [VNum 5; VNull]
           [VStr "5"; VUndefined] w0 w0 (VStr "7xKXtg2CW87d") 0%nat 0%nat).
  - reflexivity.
  - reflexivity.
  - repeat constructor.
  - repeat constructor.
  - left. reflexivity.
Defined.

(** An account with an empty network identifier and an empty address. *)
Lemma account_keys_sample :
  ∃ key type,
    requested (call (account "" "") GetBalance [] w0).2
      = requested w0 ++ [(key, type)] ∧
    key ≠ "" ∧ Str.dash_free key = false.
Proof.
  exact (account_keys_are_never_empty (account "" "") GetBalance [] w0
           (VStr "") 0%nat eq_refl eq_refl).
Defined.

(** Two proxies of one account of the network [solana]. *)
Lemma getNft_key_determines_account_sample :
  network_id (network (account "solana" "7xKXtg2CW87d"))
    = network_id (network (account "solana" "7xKXtg2CW87d")) ∧
  "7xKXtg2CW87d" = "7xKXtg2CW87d" ∧
  join "-" [VStr "m"; VStr "1"] = join "-" [VStr "m"; VNum 1].
Proof.
  apply (getNft_key_determines_account
           (account "solana" "7xKXtg2CW87d") (account "solana" "7xKXtg2CW87d")
           [VStr "m"; VStr "1"] [VStr "m"; VNum 1] w0 w0
           "7xKXtg2CW87d" "7xKXtg2CW87d" 0%nat 0%nat
           "solana-7xKXtg2CW87d-m-1" "solana-7xKXtg2CW87d-m-1"
           (Some SINGLE_NFT) (Some SINGLE_NFT)); reflexivity.
Defined.

(** Three calls that are not cached, the second with an argument its
    method does not take, the third of a method the base does not have. *)
Lemma pass_through_script_sample :
  let script := [ (GetNftBids, [VStr "mint-123"]);
                  (GetTokens, [VStr "USDC"]);
                  (Airdrop, [VNum 1]) ] in
  let r := call_all alice script w0 in
  r.1 = [ Fulfilled (VStr "bids"); Fulfilled VUndefined;
          Thrown (VStr "TypeError: not a function") ] ∧
  base_state r.2 = 2%nat ∧
  store r.2 = ∅ ∧ requested r.2 = [].
Proof.
  intros script r.
  destruct (pass_through_scripts_are_transparent alice script w0)
    as (R & B & St & Rq & _).
  - repeat constructor.
  - split; [exact R | split; [exact B | split; [exact St | exact Rq]]].
Defined.

(** The first balance query of the sample account. *)
Lemma cached_miss_sample :
  let r := call alice GetBalance [] w0 in
  r.1 = Fulfilled (VNum 0) ∧ base_state r.2 = 1%nat ∧
  store r.2 !! ("solana-devnet-7xKXtg2CW87d", BALANCE)
    = Some (Ready (VNum 0) 1000).
Proof.
  exact (cached_miss_asks_the_namesake alice GetBalance [] w0
           (VStr "7xKXtg2CW87d") 0%nat
           ("solana-devnet-7xKXtg2CW87d", BALANCE)
           eq_refl eq_refl eq_refl eq_refl).
Defined.

(** The balance is read, two queries reach the chain through calls that
    are not cached, and ten seconds later the balance read is still the
    first one. *)
Lemma stale_balance_sample :
  let r1 := call alice GetBalance [] w0 in
  let mid := (call_all alice [(GetTokens, []); (GetNftBids, [])] r1.2).2 in
  let r2 := call alice GetBalance [VNum 1] (advance 10 mid) in
  r1.1 = Fulfilled (VNum 0) ∧ r2.1 = Fulfilled (VNum 0) ∧
  base_state mid = 3%nat ∧ base_state r2.2 = 3%nat.
Proof.
  intros r1 mid r2.
  destruct (pass_through_calls_do_not_refresh alice GetBalance [] [VNum 1]
              [(GetTokens, []); (GetNftBids, [])] w0
              (VStr "7xKXtg2CW87d") (VNum 0) 1%nat
              ("solana-devnet-7xKXtg2CW87d", BALANCE) 10)
    as (V1 & V2 & B & B2 & _).
  - reflexivity.
  - intros n. reflexivity.
  - reflexivity.
  - reflexivity.
  - reflexivity.
  - reflexivity.
  - repeat constructor.
  - split; [discriminate | reflexivity].
  - split; [exact V1 | split; [exact V2 | split; [exact B |]]].
    exact B2.
Defined.

End ClassSampleFacts.
